(** * voiceService.ts: speech synthesis with cascading fallback, voice
      catalog, speech recognition and the browser capture pipeline.

    The development embeds [src/services/voiceService.ts] shallowly.

    - JavaScript strings are [string]s (sequences of code units; every
      literal of the source is ASCII), [s.length] is [String.length].
    - [try]/[catch], [throw] and the side effects of a function body are
      written in a small state-and-exception monad [M].
    - A promise is its final [Settlement]; [await] of a host call reads
      the call's [Completion] from the environment record.
    - The capture pipeline is event driven: its callbacks are run by an
      event loop over a logical clock counted in the unit of
      [setTimeout]'s delay.  Host-internal dispatch takes no time unit.
      A timer runs with the delay [setTimeout] keeps: the requested number
      as a signed 32-bit integer, a negative one counting as 0.
    - Every awaited provider call has a completion, normal or thrown.
    - Properties looked up on [window], which the source itself tests or
      defaults, may be absent.  The bare globals declared by the DOM typings
      ([MediaRecorder], [Blob], [FileReader], [SpeechSynthesisUtterance],
      [setTimeout]) are provided by the host, and apart from the audio
      context constructor the calls the executor makes on them return
      normally; statements about rejections after the start are
      therefore conditioned on the executor having returned with its
      promise pending. *)

From Stdlib Require Import String Ascii List Bool Arith PeanoNat Lia NArith QArith.
Import ListNotations.
Open Scope nat_scope.
Open Scope string_scope.

(** ** JavaScript values used by the service *)

Module Js.

(** [s.startsWith(p)] *)
Definition startsWith (s p : string) : bool := String.prefix p s.

(** [s.includes(p)]: [p] occurs at some position of [s]. *)
Fixpoint includes (s p : string) : bool :=
  String.prefix p s ||
  match s with
  | EmptyString => false
  | String _ s' => includes s' p
  end.

(** Truthiness of a string: the empty string is falsy. *)
Definition truthy_string (s : string) : bool :=
  negb (String.eqb s "").

(** Truthiness of an optional string property ([undefined] is falsy). *)
Definition truthy (o : option string) : bool :=
  match o with
  | Some s => truthy_string s
  | None => false
  end.

(** Truthiness of an optional boolean property. *)
Definition truthy_flag (o : option bool) : bool :=
  match o with
  | Some b => b
  | None => false
  end.

(** [`${o}`]: a possibly-undefined string inside a template literal. *)
Definition interpolate (o : option string) : string :=
  match o with
  | Some s => s
  | None => "undefined"
  end.

(** [a || b] on possibly-undefined object references. *)
Definition or_else {A : Type} (a b : option A) : option A :=
  match a with
  | Some x => Some x
  | None => b
  end.

(** Values that the code throws or rejects with. *)
Inductive error : Type :=
| Error (message : string)          (* new Error(message) *)
| TypeError (message : string)      (* raised by the engine *)
| DOMException (name : string)      (* raised by a host object *)
| ProgressEvent (type : string).    (* an event handed to [reject] *)

(** How the evaluation of a statement or an awaited call completes. *)
Inductive Completion (A : Type) : Type :=
| Normal (a : A)
| Throw (e : error).
Arguments Normal {A} a.
Arguments Throw {A} e.

(** The final state of a promise of a (possibly null) string. *)
Inductive Settlement : Type :=
| Pending
| Resolved (value : option string)
| Rejected (reason : error).

End Js.
Import Js.

(** ** Statements with state and exceptions *)

Module Stmt.

Definition M (S A : Type) : Type := S -> Completion A * S.

Definition ret {S A : Type} (a : A) : M S A := fun s => (Normal a, s).

Definition bind {S A B : Type} (c : M S A) (k : A -> M S B) : M S B :=
  fun s =>
    match c s with
    | (Normal a, s') => k a s'
    | (Throw e, s') => (Throw e, s')
    end.

Definition throw {S A : Type} (e : error) : M S A := fun s => (Throw e, s).

(** [try { body } catch (error) { handler(error) }]; the effects of
    [body] up to the throw are kept. *)
Definition try_catch {S A : Type} (body : M S A) (handler : error -> M S A)
  : M S A :=
  fun s =>
    match body s with
    | (Normal a, s') => (Normal a, s')
    | (Throw e, s') => handler e s'
    end.

Definition get {S : Type} : M S S := fun s => (Normal s, s).

Definition modify {S : Type} (f : S -> S) : M S unit :=
  fun s => (Normal tt, f s).

(** [await] of a call whose completion the environment determines. *)
Definition await {S A : Type} (c : Completion A) : M S A :=
  fun s => (c, s).

End Stmt.
Import Stmt.

Declare Scope stmt_scope.
Delimit Scope stmt_scope with stmt.
Notation "x <- c1 ;; c2" := (bind c1 (fun x => c2))
  (at level 61, c1 at next level, right associativity) : stmt_scope.
Notation "c1 ;; c2" := (bind c1 (fun _ => c2))
  (at level 61, right associativity) : stmt_scope.
Open Scope stmt_scope.

(** ** Data model *)

(** [export interface Voice] *)
Record Voice : Type := {
  voice_id : string;
  name : string;
  preview_url : option string;
  description : option string;
  category : option string
}.

(** The body sent to either remote provider. *)
Record SynthesisRequest : Type := {
  req_text : string;
  req_voice_id : option string;
  req_stability : option Q;
  req_similarity_boost : option Q;
  req_style : option Q;
  req_use_speaker_boost : option bool
}.

(** The [options] argument of [synthesizeSpeech]. *)
Record SynthesisOptions : Type := {
  stability : option Q;
  similarityBoost : option Q;
  style : option Q;
  speakerBoost : option bool
}.

(** Modelled from the spec: the response type of the [api] client of
    [../lib/api] is not part of the sources; section 6 gives the payload of
    a synthesis call as [{ success: bool, audio: string }], either field
    possibly absent. *)
Record SynthesisData : Type := {
  success : option bool;
  audio : option string
}.

(** Modelled from the spec: the payload of the voice-list call is
    [{ voices: VoiceIdentity[] }], the array possibly absent. *)
Record VoicesData : Type := {
  voices : option (list Voice)
}.


(** ** Host objects of the capture pipeline *)

(** A [Blob]: a MIME type and the bytes it holds. *)
Record Blob : Type := {
  blob_type : string;
  blob_bytes : list Byte.byte
}.

(** [blob.size] *)
Definition blob_size (b : Blob) : nat := List.length (blob_bytes b).

(** [new Blob(parts, { type })]: the parts' bytes in order. *)
Definition new_Blob (parts : list Blob) (type : string) : Blob :=
  {| blob_type := type; blob_bytes := flat_map blob_bytes parts |}.

Definition base64_alphabet : string :=
  "ABCDEFGHIJKLMNOPQRSTUVWXYZabcdefghijklmnopqrstuvwxyz0123456789+/".

Definition base64_digit (n : N) : ascii :=
  match String.get (N.to_nat n) base64_alphabet with
  | Some c => c
  | None => "="%char
  end.

(** Base64 of a byte sequence, three bytes to four digits, padded. *)
Fixpoint base64 (bs : list Byte.byte) : string :=
  match bs with
  | [] => ""
  | [a] =>
      let x := Byte.to_N a in
      String (base64_digit (x / 4))
        (String (base64_digit ((x mod 4) * 16)) "==")
  | [a; b] =>
      let x := Byte.to_N a in
      let y := Byte.to_N b in
      String (base64_digit (x / 4))
        (String (base64_digit ((x mod 4) * 16 + y / 16))
           (String (base64_digit ((y mod 16) * 4)) "="))
  | a :: b :: c :: rest =>
      let x := Byte.to_N a in
      let y := Byte.to_N b in
      let z := Byte.to_N c in
      String (base64_digit (x / 4))
        (String (base64_digit ((x mod 4) * 16 + y / 16))
           (String (base64_digit ((y mod 16) * 4 + z / 64))
              (String (base64_digit (z mod 64)) (base64 rest))))
  end%N.

(** The [result] of a [FileReader] after [readAsDataURL(blob)] succeeded. *)
Definition dataURL (b : Blob) : string :=
  "data:" ++ blob_type b ++ ";base64," ++ base64 (blob_bytes b).

(** [MediaRecorder.state] *)
Inductive RecordingState : Type := inactive | recording | paused.

(** [AudioContext.state] *)
Inductive AudioContextState : Type := suspended | running | closed.

Record SpeechSynthesisVoice : Type := {
  sv_name : string;
  sv_lang : string
}.

Record SpeechSynthesisUtterance : Type := {
  utt_text : string;
  utt_voice : option SpeechSynthesisVoice;
  utt_rate : Q;
  utt_pitch : Q
}.

Record SpeechRecognitionAlternative : Type := {
  transcript : string;
  confidence : Q
}.

(** What a recognition session reports to its handlers. *)
Inductive RecognitionEvent : Type :=
| result_event (results : list (list SpeechRecognitionAlternative))
| error_event (code : string).

(** The properties of a recognition session the service writes. *)
Record SpeechRecognitionSession : Type := {
  lang : string;
  interimResults : bool;
  maxAlternatives : nat;
  started : bool
}.

(** A recognition constructor of the host: the session it builds and the
    events a started session will report, in order. *)
Record SpeechRecognitionImpl : Type := {
  fresh_session : SpeechRecognitionSession;
  session_events : list RecognitionEvent
}.

(** The host: which properties [window] has and how the host objects
    behave during one call. *)
Record Host : Type := {
  speechSynthesis_in_window : bool;
  speechSynthesis_getVoices : list SpeechSynthesisVoice;
  window_AudioContext : bool;
  window_webkitAudioContext : bool;
  window_SpeechRecognition : option SpeechRecognitionImpl;
  window_webkitSpeechRecognition : option SpeechRecognitionImpl;
  (* when the engine fires [end] on the utterance; [None]: never *)
  utterance_end : option nat;
  (* whether an [end] due at the timer's deadline is delivered first *)
  end_before_timer : bool;
  (* the fragments the recorder hands over when stopped at a given time *)
  recorded : nat -> list Blob;
  (* whether reading the blob fails *)
  reader_fails : bool;
  (* whether [stop()] on an inactive recorder throws InvalidStateError
     (it does in the older recording specification, not in the newer) *)
  stop_inactive_throws : bool
}.

(** Calls the pipeline makes on host objects, with the state the object
    was in when called. *)
Inductive HostCall : Type :=
| Call_new_AudioContext
| Call_createMediaStreamDestination
| Call_new_MediaRecorder
| Call_start
| Call_stop (at_state : RecordingState)
| Call_close (at_state : AudioContextState)
| Call_speak (u : SpeechSynthesisUtterance)
| Call_setTimeout (delay : nat)
| Call_readAsDataURL (b : Blob).

(** The state of one run of the capture pipeline. *)
Record Capture : Type := {
  now : nat;                                 (* logical clock *)
  state : RecordingState;                    (* mediaRecorder.state *)
  context : AudioContextState;               (* audioContext.state *)
  chunks : list Blob;
  promise : Settlement;
  settled_at : option nat;
  stopped : nat;          (* transitions of the recorder to inactive *)
  speaking : option SpeechSynthesisUtterance; (* utterance with [onend] *)
  timer : option nat;                        (* delay of the safeguard *)
  reading : option Blob;                     (* blob given to the reader *)
  calls : list HostCall;                     (* oldest first *)
  uncaught : list error                      (* thrown out of a handler *)
}.

Definition initial_capture : Capture :=
  {| now := 0; state := inactive; context := suspended; chunks := [];
     promise := Pending; settled_at := None; stopped := 0;
     speaking := None; timer := None; reading := None;
     calls := []; uncaught := [] |}.

Definition set_now (t : nat) (c : Capture) : Capture :=
  {| now := t; state := state c; context := context c; chunks := chunks c;
     promise := promise c; settled_at := settled_at c; stopped := stopped c;
     speaking := speaking c; timer := timer c; reading := reading c;
     calls := calls c; uncaught := uncaught c |}.

Definition set_state (s : RecordingState) (c : Capture) : Capture :=
  {| now := now c; state := s; context := context c; chunks := chunks c;
     promise := promise c; settled_at := settled_at c; stopped := stopped c;
     speaking := speaking c; timer := timer c; reading := reading c;
     calls := calls c; uncaught := uncaught c |}.

Definition set_context (s : AudioContextState) (c : Capture) : Capture :=
  {| now := now c; state := state c; context := s; chunks := chunks c;
     promise := promise c; settled_at := settled_at c; stopped := stopped c;
     speaking := speaking c; timer := timer c; reading := reading c;
     calls := calls c; uncaught := uncaught c |}.

Definition set_chunks (l : list Blob) (c : Capture) : Capture :=
  {| now := now c; state := state c; context := context c; chunks := l;
     promise := promise c; settled_at := settled_at c; stopped := stopped c;
     speaking := speaking c; timer := timer c; reading := reading c;
     calls := calls c; uncaught := uncaught c |}.

(** A promise settles once: later [resolve]/[reject] calls do nothing. *)
Definition settle (s : Settlement) (c : Capture) : Capture :=
  match promise c with
  | Pending =>
      {| now := now c; state := state c; context := context c;
         chunks := chunks c; promise := s; settled_at := Some (now c);
         stopped := stopped c; speaking := speaking c; timer := timer c;
         reading := reading c; calls := calls c; uncaught := uncaught c |}
  | _ => c
  end.

Definition count_stop (c : Capture) : Capture :=
  {| now := now c; state := state c; context := context c; chunks := chunks c;
     promise := promise c; settled_at := settled_at c;
     stopped := S (stopped c);
     speaking := speaking c; timer := timer c; reading := reading c;
     calls := calls c; uncaught := uncaught c |}.

Definition set_speaking (u : SpeechSynthesisUtterance) (c : Capture) : Capture :=
  {| now := now c; state := state c; context := context c; chunks := chunks c;
     promise := promise c; settled_at := settled_at c; stopped := stopped c;
     speaking := Some u; timer := timer c; reading := reading c;
     calls := calls c; uncaught := uncaught c |}.

Definition set_timer (d : nat) (c : Capture) : Capture :=
  {| now := now c; state := state c; context := context c; chunks := chunks c;
     promise := promise c; settled_at := settled_at c; stopped := stopped c;
     speaking := speaking c; timer := Some d; reading := reading c;
     calls := calls c; uncaught := uncaught c |}.

Definition set_reading (b : Blob) (c : Capture) : Capture :=
  {| now := now c; state := state c; context := context c; chunks := chunks c;
     promise := promise c; settled_at := settled_at c; stopped := stopped c;
     speaking := speaking c; timer := timer c; reading := Some b;
     calls := calls c; uncaught := uncaught c |}.

Definition log_call (k : HostCall) (c : Capture) : Capture :=
  {| now := now c; state := state c; context := context c; chunks := chunks c;
     promise := promise c; settled_at := settled_at c; stopped := stopped c;
     speaking := speaking c; timer := timer c; reading := reading c;
     calls := calls c ++ [k]; uncaught := uncaught c |}.

Definition log_uncaught (e : error) (c : Capture) : Capture :=
  {| now := now c; state := state c; context := context c; chunks := chunks c;
     promise := promise c; settled_at := settled_at c; stopped := stopped c;
     speaking := speaking c; timer := timer c; reading := reading c;
     calls := calls c; uncaught := uncaught c ++ [e] |}.

(** The delay a timer runs with.  [setTimeout] takes its delay as a WebIDL
    [long]: the requested number is reduced modulo 2^32 into the signed
    32-bit range, and a negative delay counts as 0. *)
Definition timer_delay (requested : nat) : nat :=
  let wrapped := (N.of_nat requested mod 4294967296)%N in
  if (wrapped <? 2147483648)%N then N.to_nat wrapped else 0.

(** ** The capture pipeline: [synthesizeWithBrowser] *)

Module Pipeline.

(** [resolve(value)] and [reject(reason)] of the pipeline's promise. *)
Definition resolve (value : option string) : M Capture unit :=
  modify (settle (Resolved value)).

Definition reject (reason : error) : M Capture unit :=
  modify (settle (Rejected reason)).

(** [new (window.AudioContext || window.webkitAudioContext)()]: with
    neither property the operand of [new] is [undefined]. *)
Definition new_AudioContext (h : Host) : M Capture unit :=
  if window_AudioContext h || window_webkitAudioContext h then
    modify (fun c => set_context running (log_call Call_new_AudioContext c))
  else
    throw (TypeError "undefined is not a constructor").

Definition createMediaStreamDestination : M Capture unit :=
  modify (log_call Call_createMediaStreamDestination).

Definition new_MediaRecorder : M Capture unit :=
  modify (fun c => set_state inactive (log_call Call_new_MediaRecorder c)).

(** [mediaRecorder.start()] *)
Definition mediaRecorder_start : M Capture unit :=
  modify (fun c => set_state recording (log_call Call_start c)).

(** [mediaRecorder.stop()]: inactivates a recorder that is not inactive;
    the host then hands over the recording and fires [stop]. *)
Definition mediaRecorder_stop (h : Host) : M Capture unit :=
  c <- get ;;
  modify (log_call (Call_stop (state c))) ;;
  match state c with
  | inactive =>
      if stop_inactive_throws h
      then throw (DOMException "InvalidStateError")
      else ret tt
  | _ => modify (fun c => count_stop (set_state inactive c))
  end.

(** [audioContext.close()]; on a closed context the promise it returns
    is rejected, which nobody observes. *)
Definition audioContext_close : M Capture unit :=
  c <- get ;;
  modify (fun c => set_context closed (log_call (Call_close (context c)) c)).

(** [window.speechSynthesis.speak(utterance)] *)
Definition speechSynthesis_speak (u : SpeechSynthesisUtterance)
  : M Capture unit :=
  modify (fun c => set_speaking u (log_call (Call_speak u) c)).

(** [setTimeout(fallback, delay)]: the call is made with [delay], the
    timer runs with what the host keeps of it. *)
Definition setTimeout (delay : nat) : M Capture unit :=
  modify (fun c =>
    set_timer (timer_delay delay) (log_call (Call_setTimeout delay) c)).

(** [reader.readAsDataURL(blob)] *)
Definition reader_readAsDataURL (b : Blob) : M Capture unit :=
  modify (fun c => set_reading b (log_call (Call_readAsDataURL b) c)).

(** [mediaRecorder.ondataavailable] *)
Definition ondataavailable (data : Blob) : M Capture unit :=
  if (0 <? blob_size data)%nat then
    modify (fun c => set_chunks (chunks c ++ [data]) c)
  else ret tt.

(** [reader.onloadend] *)
Definition reader_onloadend (reader_result : option string)
  : M Capture unit :=
  resolve reader_result.

(** [reader.onerror = reject] *)
Definition reader_onerror (event : error) : M Capture unit :=
  reject event.

(** [mediaRecorder.onstop] *)
Definition onstop : M Capture unit :=
  c <- get ;;
  let blob := new_Blob (chunks c) "audio/wav" in
  reader_readAsDataURL blob.

(** [utterance.onend] *)
Definition utterance_onend (h : Host) : M Capture unit :=
  mediaRecorder_stop h ;;
  audioContext_close.

(** The callback given to [setTimeout]. *)
Definition timeout_fallback (h : Host) : M Capture unit :=
  c <- get ;;
  match state c with
  | recording =>
      mediaRecorder_stop h ;;
      audioContext_close
  | _ => ret tt
  end.

(** The voice given to the utterance, if any. *)
Definition pick_voice (voices : list SpeechSynthesisVoice)
  : option SpeechSynthesisVoice :=
  let englishVoices :=
    filter (fun voice => includes (sv_lang voice) "en-") voices in
  if (0 <? List.length englishVoices)%nat then
    let femaleVoice :=
      find (fun voice => includes (sv_name voice) "female"
                         || includes (sv_name voice) "Female")
           englishVoices in
    or_else femaleVoice (nth_error englishVoices 0)
  else None.

(** The function given to [new Promise]. *)
Definition executor (h : Host) (text : string) : M Capture unit :=
  if negb (speechSynthesis_in_window h) then
    reject (Error "Speech synthesis not supported in this browser")
  else
    new_AudioContext h ;;
    createMediaStreamDestination ;;
    new_MediaRecorder ;;
    mediaRecorder_start ;;
    let utterance :=
      {| utt_text := text;
         utt_voice := pick_voice (speechSynthesis_getVoices h);
         utt_rate := 1;
         utt_pitch := 1 |} in
    speechSynthesis_speak utterance ;;
    setTimeout (String.length text * 100).

(** [new Promise(executor)]: an exception of the executor rejects. *)
Definition new_Promise (body : M Capture unit) (c : Capture) : Capture :=
  match body c with
  | (Normal _, c') => c'
  | (Throw e, c') => settle (Rejected e) c'
  end.

(** The host runs a handler; what it throws is reported, not returned. *)
Definition invoke (handler : M Capture unit) (c : Capture) : Capture :=
  match handler c with
  | (Normal _, c') => c'
  | (Throw e, c') => log_uncaught e c'
  end.

(** The events of the reader once it was given a blob: [error] then
    [loadend] with a null result, or [loadend] with the data URL. *)
Definition reader_events (h : Host) (c : Capture) : Capture :=
  match reading c with
  | None => c
  | Some blob =>
      if reader_fails h then
        invoke (reader_onloadend None)
          (invoke (reader_onerror (ProgressEvent "error")) c)
      else
        invoke (reader_onloadend (Some (dataURL blob))) c
  end.

(** The events of a recorder that was just inactivated: [dataavailable]
    for what it recorded, then [stop]. *)
Definition recorder_events (h : Host) (c : Capture) : Capture :=
  let c1 :=
    fold_left (fun c data => invoke (ondataavailable data) c)
              (recorded h (now c)) c in
  reader_events h (invoke onstop c1).

(** One turn of the event loop at time [t]. *)
Definition deliver (h : Host) (t : nat) (handler : M Capture unit)
  (c : Capture) : Capture :=
  let c0 := set_now t c in
  let c1 := invoke handler c0 in
  match state c0, state c1 with
  | recording, inactive => recorder_events h c1
  | _, _ => c1
  end.

Inductive Callback : Type := Utterance_end | Timeout.

Definition handler_of (h : Host) (cb : Callback) : M Capture unit :=
  match cb with
  | Utterance_end => utterance_onend h
  | Timeout => timeout_fallback h
  end.

(** The callbacks the host will run, in order, for what was registered. *)
Definition schedule (h : Host) (c : Capture) : list (nat * Callback) :=
  match speaking c, utterance_end h, timer c with
  | Some _, Some te, Some d =>
      if ((te <? d)%nat || ((te =? d)%nat && end_before_timer h))%bool
      then [(te, Utterance_end); (d, Timeout)]
      else [(d, Timeout); (te, Utterance_end)]
  | Some _, Some te, None => [(te, Utterance_end)]
  | _, _, Some d => [(d, Timeout)]
  | _, _, None => []
  end.

Definition run (h : Host) (sched : list (nat * Callback)) (c : Capture)
  : Capture :=
  fold_left (fun c ev => deliver h (fst ev) (handler_of h (snd ev)) c)
            sched c.

(** The pipeline state right after [synthesizeWithBrowser] returned. *)
Definition started_capture (h : Host) (text : string) : Capture :=
  new_Promise (executor h text) initial_capture.

(** [synthesizeWithBrowser(text)], followed until the host has no
    callback left to run. *)
Definition synthesizeWithBrowser (h : Host) (text : string) : Capture :=
  let c := started_capture h text in
  run h (schedule h c) c.

End Pipeline.

(** ** The environment of the service *)

(** What the remote ends and the build configuration answer during one
    call.  [api_post] and [fetch_json] give the completion of awaiting the
    call and reading its payload ([response.data], [response.json()]). *)
Record Env : Type := {
  api_post : string -> SynthesisRequest -> Completion SynthesisData;
  api_get : string -> Completion VoicesData;
  VITE_SUPABASE_URL : option string;
  VITE_SUPABASE_ANON_KEY : option string;
  fetch_json :
    string -> string -> SynthesisRequest -> Completion SynthesisData;
  window : Host
}.

(** Calls that leave the service, in the order they are made. *)
Inductive ServiceCall : Type :=
| Call_api_post (path : string) (body : SynthesisRequest)
| Call_api_get (path : string)
| Call_fetch (url : string) (authorization : string)
    (body : SynthesisRequest)
| Call_synthesizeWithBrowser (text : string).

Inductive ConsoleEntry : Type :=
| console_warn_entry (message : string) (e : error)
| console_error_entry (message : string) (e : error)
| console_log_entry (message : string) (value : string).

Record World : Type := {
  invoked : list ServiceCall;
  console : list ConsoleEntry
}.

Definition initial_world : World := {| invoked := []; console := [] |}.

Definition log_invoked (k : ServiceCall) (w : World) : World :=
  {| invoked := invoked w ++ [k]; console := console w |}.

Definition log_console (k : ConsoleEntry) (w : World) : World :=
  {| invoked := invoked w; console := console w ++ [k] |}.

(** ** The service *)

Module voiceService.

Definition console_warn (message : string) (e : error) : M World unit :=
  modify (log_console (console_warn_entry message e)).

Definition console_error (message : string) (e : error) : M World unit :=
  modify (log_console (console_error_entry message e)).

(** [await api.post(path, body)], then [response.data]. *)
Definition await_api_post (env : Env) (path : string)
  (body : SynthesisRequest) : M World SynthesisData :=
  modify (log_invoked (Call_api_post path body)) ;;
  await (api_post env path body).

(** [await api.get(path)], then [response.data]. *)
Definition await_api_get (env : Env) (path : string) : M World VoicesData :=
  modify (log_invoked (Call_api_get path)) ;;
  await (api_get env path).

(** [await fetch(url, { method: 'POST', headers, body })], then
    [await response.json()]. *)
Definition await_fetch_json (env : Env) (url authorization : string)
  (body : SynthesisRequest) : M World SynthesisData :=
  modify (log_invoked (Call_fetch url authorization body)) ;;
  await (fetch_json env url authorization body).

(** The call [synthesizeWithBrowser(text)]; its value is the promise. *)
Definition call_synthesizeWithBrowser (env : Env) (text : string)
  : M World Settlement :=
  modify (log_invoked (Call_synthesizeWithBrowser text)) ;;
  ret (promise (Pipeline.synthesizeWithBrowser (window env) text)).

(** The object literal both providers receive. *)
Definition request_body (text : string) (voiceId : option string)
  (options : option SynthesisOptions) : SynthesisRequest :=
  {| req_text := text;
     req_voice_id := voiceId;
     req_stability := match options with Some o => stability o | None => None end;
     req_similarity_boost :=
       match options with Some o => similarityBoost o | None => None end;
     req_style := match options with Some o => style o | None => None end;
     req_use_speaker_boost :=
       match options with Some o => speakerBoost o | None => None end |}.

(** The test guarding the Edge Function call. *)
Definition edge_function_configured (supabaseUrl supabaseAnonKey : option string)
  : bool :=
  match supabaseUrl, supabaseAnonKey with
  | Some u, Some k =>
      truthy_string u && truthy_string k &&
      negb (includes u "your_") && negb (includes k "your_")
  | _, _ => false
  end.

(** The body of [synthesizeSpeech].  A [return] inside an inner [try] is
    [Some] of the returned string; [None] falls through. *)
Definition synthesizeSpeech_body (env : Env) (text : string)
  (voiceId : option string) (options : option SynthesisOptions)
  : M World Settlement :=
  try_catch
    (from_api <-
       try_catch
         (data <- await_api_post env "/agent/voice/synthesize"
                    (request_body text voiceId options) ;;
          if truthy_flag (success data) && truthy (audio data) then
            match audio data with
            | Some payload =>
                if negb (startsWith payload "data:") then
                  ret (Some ("data:audio/mpeg;base64," ++ payload))
                else ret (Some payload)
            | None => throw (TypeError "undefined has no startsWith")
            end
          else ret None)
         (fun error =>
            console_warn
              "Failed to synthesize speech via API, using fallback:" error ;;
            ret None) ;;
     match from_api with
     | Some url => ret (Resolved (Some url))
     | None =>
         let supabaseUrl := VITE_SUPABASE_URL env in
         let supabaseAnonKey := VITE_SUPABASE_ANON_KEY env in
         from_edge <-
           (if edge_function_configured supabaseUrl supabaseAnonKey then
              try_catch
                (data <- await_fetch_json env
                           (interpolate supabaseUrl
                            ++ "/functions/v1/voice-synthesis")
                           ("Bearer " ++ interpolate supabaseAnonKey)
                           (request_body text voiceId options) ;;
                 if truthy_flag (success data) && truthy (audio data) then
                   ret (Some ("data:audio/mpeg;base64,"
                              ++ interpolate (audio data)))
                 else ret None)
                (fun error =>
                   console_warn
                     "Failed to synthesize speech via Edge Function, using browser fallback:"
                     error ;;
                   ret None)
            else ret None) ;;
         match from_edge with
         | Some url => ret (Resolved (Some url))
         | None => call_synthesizeWithBrowser env text
         end
     end)
    (fun error =>
       console_error "Failed to synthesize speech:" error ;;
       call_synthesizeWithBrowser env text).

(** The promise of an [async] function whose body returns a promise. *)
Definition async_promise (r : Completion Settlement * World)
  : Settlement * World :=
  match r with
  | (Normal p, w) => (p, w)
  | (Throw e, w) => (Rejected e, w)
  end.

(** [voiceService.synthesizeSpeech(text, voiceId, options)]: how the
    promise it returns settles, and what the call did. *)
Definition synthesizeSpeech (env : Env) (text : string)
  (voiceId : option string) (options : option SynthesisOptions)
  : Settlement * World :=
  async_promise (synthesizeSpeech_body env text voiceId options initial_world).

(** [getMockVoices()] *)
Definition getMockVoices : list Voice :=
  [ {| voice_id := "21m00Tcm4TlvDq8ikWAM";
       name := "Rachel";
       preview_url := Some "https://example.com/voice-preview.mp3";
       category := Some "premade";
       description := Some "A friendly and professional female voice" |};
    {| voice_id := "AZnzlk1XvdvUeBnXmlld";
       name := "Domi";
       preview_url := Some "https://example.com/voice-preview.mp3";
       category := Some "premade";
       description := Some "An authoritative and clear male voice" |};
    {| voice_id := "EXAVITQu4vr4xnSDxMaL";
       name := "Bella";
       preview_url := Some "https://example.com/voice-preview.mp3";
       category := Some "premade";
       description := Some "A warm and engaging female voice" |};
    {| voice_id := "ErXwobaYiN019PkySvjV";
       name := "Antoni";
       preview_url := Some "https://example.com/voice-preview.mp3";
       category := Some "premade";
       description := Some "A confident and articulate male voice" |} ].

(** The body of [listVoices]. *)
Definition listVoices_body (env : Env) : M World (list Voice) :=
  try_catch
    (from_api <-
       try_catch
         (data <- await_api_get env "/agent/voice/voices" ;;
          match voices data with
          | Some vs =>
              if (0 <? List.length vs)%nat then ret (Some vs) else ret None
          | None => ret None
          end)
         (fun error =>
            console_warn "Failed to list voices via API, using fallback:"
                         error ;;
            ret None) ;;
     match from_api with
     | Some vs => ret vs
     | None => ret getMockVoices
     end)
    (fun error =>
       console_error "Failed to list voices:" error ;;
       ret getMockVoices).

(** [voiceService.listVoices()]: [Normal] is a resolved promise,
    [Throw] a rejected one. *)
Definition listVoices (env : Env) : Completion (list Voice) * World :=
  listVoices_body env initial_world.

(** [voiceService.isSpeechSynthesisSupported()] *)
Definition isSpeechSynthesisSupported (h : Host) : bool :=
  speechSynthesis_in_window h.

(** [voiceService.isSpeechRecognitionSupported()] *)
Definition isSpeechRecognitionSupported (h : Host) : bool :=
  match or_else (window_SpeechRecognition h)
                (window_webkitSpeechRecognition h) with
  | Some _ => true
  | None => false
  end.

(** The state of one call of [recognizeSpeech]. *)
Record Recognizing : Type := {
  sessions : list SpeechRecognitionSession;   (* sessions constructed *)
  rec_promise : Settlement;
  rec_console : list ConsoleEntry;
  rec_uncaught : list error
}.

Definition initial_recognizing : Recognizing :=
  {| sessions := []; rec_promise := Pending; rec_console := [];
     rec_uncaught := [] |}.

Definition rec_settle (s : Settlement) (r : Recognizing) : Recognizing :=
  match rec_promise r with
  | Pending =>
      {| sessions := sessions r; rec_promise := s;
         rec_console := rec_console r; rec_uncaught := rec_uncaught r |}
  | _ => r
  end.

Definition rec_resolve (value : string) : M Recognizing unit :=
  modify (rec_settle (Resolved (Some value))).

Definition rec_reject (reason : error) : M Recognizing unit :=
  modify (rec_settle (Rejected reason)).

Definition rec_console_log (message value : string) : M Recognizing unit :=
  modify (fun r =>
    {| sessions := sessions r; rec_promise := rec_promise r;
       rec_console := rec_console r ++ [console_log_entry message value];
       rec_uncaught := rec_uncaught r |}).

(** [new SpeechRecognition()] and the three assignments and [start()]
    that configure the one session of the call. *)
Definition new_session (s : SpeechRecognitionSession) : M Recognizing unit :=
  modify (fun r =>
    {| sessions := sessions r ++ [s]; rec_promise := rec_promise r;
       rec_console := rec_console r; rec_uncaught := rec_uncaught r |}).

Definition update_session (f : SpeechRecognitionSession ->
                               SpeechRecognitionSession)
  : M Recognizing unit :=
  modify (fun r =>
    {| sessions := map f (sessions r); rec_promise := rec_promise r;
       rec_console := rec_console r; rec_uncaught := rec_uncaught r |}).

Definition set_lang (v : string) (s : SpeechRecognitionSession) :=
  {| lang := v; interimResults := interimResults s;
     maxAlternatives := maxAlternatives s; started := started s |}.

Definition set_interimResults (v : bool) (s : SpeechRecognitionSession) :=
  {| lang := lang s; interimResults := v;
     maxAlternatives := maxAlternatives s; started := started s |}.

Definition set_maxAlternatives (v : nat) (s : SpeechRecognitionSession) :=
  {| lang := lang s; interimResults := interimResults s;
     maxAlternatives := v; started := started s |}.

Definition set_started (s : SpeechRecognitionSession) :=
  {| lang := lang s; interimResults := interimResults s;
     maxAlternatives := maxAlternatives s; started := true |}.

(** [recognition.onresult]: [event.results[0][0].transcript]; indexing
    past the end gives [undefined], whose property read throws. *)
Definition onresult (results : list (list SpeechRecognitionAlternative))
  : M Recognizing unit :=
  match nth_error results 0 with
  | None => throw (TypeError "cannot read properties of undefined")
  | Some first =>
      match nth_error first 0 with
      | None => throw (TypeError "cannot read properties of undefined")
      | Some alternative =>
          let speechResult := transcript alternative in
          rec_console_log "Speech recognized:" speechResult ;;
          rec_resolve speechResult
      end
  end.

(** [recognition.onerror] *)
Definition onerror (code : string) : M Recognizing unit :=
  rec_reject (Error ("Speech recognition error: " ++ code)).

(** The function given to [new Promise] by [recognizeSpeech]; it tells
    which constructor, if any, built the session it started. *)
Definition recognize_executor (h : Host)
  : M Recognizing (option SpeechRecognitionImpl) :=
  let SpeechRecognition :=
    or_else (window_SpeechRecognition h) (window_webkitSpeechRecognition h) in
  match SpeechRecognition with
  | None =>
      rec_reject (Error "Speech recognition not supported in this browser") ;;
      ret None
  | Some impl =>
      new_session (fresh_session impl) ;;
      update_session (set_lang "en-US") ;;
      update_session (set_interimResults false) ;;
      update_session (set_maxAlternatives 1) ;;
      update_session set_started ;;
      ret (Some impl)
  end.

Definition rec_invoke (handler : M Recognizing unit) (r : Recognizing)
  : Recognizing :=
  match handler r with
  | (Normal _, r') => r'
  | (Throw e, r') =>
      {| sessions := sessions r'; rec_promise := rec_promise r';
         rec_console := rec_console r';
         rec_uncaught := rec_uncaught r' ++ [e] |}
  end.

Definition rec_handler (ev : RecognitionEvent) : M Recognizing unit :=
  match ev with
  | result_event results => onresult results
  | error_event code => onerror code
  end.

(** The state right after [recognizeSpeech] returned its promise. *)
Definition recognize_started (h : Host)
  : Completion (option SpeechRecognitionImpl) * Recognizing :=
  recognize_executor h initial_recognizing.

(** [voiceService.recognizeSpeech()], followed until the session has
    reported all its events. *)
Definition recognizeSpeech (h : Host) : Recognizing :=
  match recognize_started h with
  | (Normal (Some impl), r) =>
      fold_left (fun r ev => rec_invoke (rec_handler ev) r)
                (session_events impl) r
  | (Normal None, r) => r
  | (Throw e, r) => rec_settle (Rejected e) r
  end.

End voiceService.

(** ** Vocabulary of the properties *)

Import Pipeline voiceService.

(** The fragments [ondataavailable] keeps. *)
Definition kept (fragments : list Blob) : list Blob :=
  filter (fun data => (0 <? blob_size data)%nat) fragments.

(** The time of the first callback of a started pipeline: the earlier
    of the utterance's [end] and the safeguard's deadline. *)
Definition stop_time (h : Host) (text : string) : nat :=
  match utterance_end h with
  | Some te => Nat.min te (timer_delay (String.length text * 100))
  | None => timer_delay (String.length text * 100)
  end.

(** A requested delay that fits the signed 32-bit range of a timer. *)
Definition fits_timer (requested : nat) : Prop :=
  (N.of_nat requested <= 2147483647)%N.

(** The data URL of the recording of a pipeline stopped at time [t]. *)
Definition recording_url (h : Host) (t : nat) : string :=
  dataURL (new_Blob (kept (recorded h t)) "audio/wav").

(** [window.AudioContext || window.webkitAudioContext] is defined. *)
Definition audio_context_available (h : Host) : bool :=
  window_AudioContext h || window_webkitAudioContext h.

(** The rejection of the capture tier for a host without synthesis. *)
Definition UnsupportedEnvironment : error :=
  Error "Speech synthesis not supported in this browser".

(** A synthesis result is self-describing: it is a [data:] URL. *)
Definition self_describing (s : string) : Prop :=
  startsWith s "data:" = true.

(** A [data:] URL tagged with the given MIME type. *)
Definition tagged (mime s : string) : Prop :=
  startsWith s ("data:" ++ mime ++ ";base64,") = true.

(** A provider failed: the call threw, or the success flag is falsy, or
    the audio payload is missing. *)
Definition provider_failed (c : Completion SynthesisData) : Prop :=
  match c with
  | Throw _ => True
  | Normal data =>
      truthy_flag (success data) = false \/ truthy (audio data) = false
  end.

(** Endpoint and credential are both present and neither contains the
    placeholder marker. *)
Definition secondary_configured (env : Env) : Prop :=
  exists u k,
    VITE_SUPABASE_URL env = Some u /\ VITE_SUPABASE_ANON_KEY env = Some k /\
    u <> "" /\ k <> "" /\
    includes u "your_" = false /\ includes k "your_" = false.

(** How the pipeline's promise settles once the reader was given the
    recording whose data URL is [url]. *)
Definition settlement_of (h : Host) (url : string) : Settlement :=
  if reader_fails h then Rejected (ProgressEvent "error")
  else Resolved (Some url).

(** The two callbacks that carry the stop logic. *)
Definition is_stop_handler (h : Host) (handler : M Capture unit) : Prop :=
  handler = utterance_onend h \/ handler = timeout_fallback h.

(** Why the capture tier rejected with [e] on host [h]. *)
Definition rejection_cause (h : Host) (e : error) : Prop :=
  (speechSynthesis_in_window h = false /\ e = UnsupportedEnvironment) \/
  (speechSynthesis_in_window h = true /\ audio_context_available h = false /\
   exists message, e = TypeError message) \/
  (speechSynthesis_in_window h = true /\ audio_context_available h = true /\
   reader_fails h = true /\ e = ProgressEvent "error").

(** The request to the primary endpoint. *)
Definition primary_call (text : string) (voiceId : option string)
  (options : option SynthesisOptions) : ServiceCall :=
  Call_api_post "/agent/voice/synthesize" (request_body text voiceId options).

(** What the primary endpoint answers to the call's request. *)
Definition primary_response (env : Env) (text : string)
  (voiceId : option string) (options : option SynthesisOptions)
  : Completion SynthesisData :=
  api_post env "/agent/voice/synthesize" (request_body text voiceId options).

(** The request to the secondary endpoint and what it answers. *)
Definition secondary_call (env : Env) (text : string)
  (voiceId : option string) (options : option SynthesisOptions)
  : ServiceCall :=
  Call_fetch
    (interpolate (VITE_SUPABASE_URL env) ++ "/functions/v1/voice-synthesis")
    ("Bearer " ++ interpolate (VITE_SUPABASE_ANON_KEY env))
    (request_body text voiceId options).

Definition secondary_response (env : Env) (text : string)
  (voiceId : option string) (options : option SynthesisOptions)
  : Completion SynthesisData :=
  fetch_json env
    (interpolate (VITE_SUPABASE_URL env) ++ "/functions/v1/voice-synthesis")
    ("Bearer " ++ interpolate (VITE_SUPABASE_ANON_KEY env))
    (request_body text voiceId options).

(** A call is a request to the secondary endpoint. *)
Definition is_secondary_call (k : ServiceCall) : Prop :=
  match k with
  | Call_fetch _ _ _ => True
  | _ => False
  end.

(** The session [recognizeSpeech] configures and starts. *)
Definition configured_session : SpeechRecognitionSession :=
  {| lang := "en-US"; interimResults := false; maxAlternatives := 1;
     started := true |}.

(** The rejection of [recognizeSpeech] for a host without recognition. *)
Definition UnsupportedRecognition : error :=
  Error "Speech recognition not supported in this browser".

(** The recognition constructor the service picks. *)
Definition recognition_constructor (h : Host) : option SpeechRecognitionImpl :=
  or_else (window_SpeechRecognition h) (window_webkitSpeechRecognition h).

(** ** Sample hosts and environments *)

Definition webm (bytes : list Byte.byte) : Blob :=
  {| blob_type := "audio/webm"; blob_bytes := bytes |}.

(** A browser with synthesis whose utterance never reports its end. *)
Definition silent_host : Host :=
  {| speechSynthesis_in_window := true;
     speechSynthesis_getVoices :=
       [ {| sv_name := "Google US English"; sv_lang := "en-US" |};
         {| sv_name := "Female voice"; sv_lang := "en-GB" |} ];
     window_AudioContext := true;
     window_webkitAudioContext := false;
     window_SpeechRecognition := None;
     window_webkitSpeechRecognition := None;
     utterance_end := None;
     end_before_timer := true;
     recorded := fun _ => [webm [Byte.x4d; Byte.x61; Byte.x6e]; webm []];
     reader_fails := false;
     stop_inactive_throws := true |}.

(** The same browser whose utterance ends at the given time. *)
Definition host_ending_at (te : nat) (throws : bool) : Host :=
  {| speechSynthesis_in_window := true;
     speechSynthesis_getVoices := speechSynthesis_getVoices silent_host;
     window_AudioContext := true;
     window_webkitAudioContext := false;
     window_SpeechRecognition := None;
     window_webkitSpeechRecognition := None;
     utterance_end := Some te;
     end_before_timer := true;
     recorded := recorded silent_host;
     reader_fails := false;
     stop_inactive_throws := throws |}.

(** The same browser whose [FileReader] fails to read the recording. *)
Definition unreadable_host : Host :=
  {| speechSynthesis_in_window := true;
     speechSynthesis_getVoices := speechSynthesis_getVoices silent_host;
     window_AudioContext := true;
     window_webkitAudioContext := false;
     window_SpeechRecognition := None;
     window_webkitSpeechRecognition := None;
     utterance_end := None;
     end_before_timer := true;
     recorded := recorded silent_host;
     reader_fails := true;
     stop_inactive_throws := true |}.

(** A recognition constructor reporting the given events. *)
Definition recognizer (events : list RecognitionEvent)
  : SpeechRecognitionImpl :=
  {| fresh_session :=
       {| lang := ""; interimResults := true; maxAlternatives := 3;
          started := false |};
     session_events := events |}.

(** A browser with prefixed recognition only. *)
Definition webkit_host (events : list RecognitionEvent) : Host :=
  {| speechSynthesis_in_window := true;
     speechSynthesis_getVoices := [];
     window_AudioContext := false;
     window_webkitAudioContext := true;
     window_SpeechRecognition := None;
     window_webkitSpeechRecognition := Some (recognizer events);
     utterance_end := None;
     end_before_timer := false;
     recorded := fun _ => [];
     reader_fails := false;
     stop_inactive_throws := false |}.

(** An environment: what the primary endpoint answers, the Supabase
    configuration, what the Edge Function answers, and the browser. *)
Definition sample_env (primary : Completion SynthesisData)
  (url key : option string) (edge : Completion SynthesisData)
  (catalog : Completion VoicesData) (h : Host) : Env :=
  {| api_post := fun _ _ => primary;
     api_get := fun _ => catalog;
     VITE_SUPABASE_URL := url;
     VITE_SUPABASE_ANON_KEY := key;
     fetch_json := fun _ _ _ => edge;
     window := h |}.

Definition network_error : Completion SynthesisData :=
  Throw (Error "Network Error").

Definition synthesized (payload : string) : Completion SynthesisData :=
  Normal {| success := Some true; audio := Some payload |}.

(** No secondary endpoint configured: the template's placeholders. *)
Definition offline_env (h : Host) : Env :=
  sample_env network_error (Some "your_supabase_url")
    (Some "your_supabase_anon_key") network_error
    (Throw (Error "Network Error")) h.

(** The secondary endpoint configured and answering [edge]. *)
Definition edge_env (edge : Completion SynthesisData) (h : Host) : Env :=
  sample_env network_error (Some "https://project.supabase.co")
    (Some "anon-key") edge (Normal {| voices := Some [] |}) h.

(** ** Further vocabulary *)



(** The settlement a sequence of session events leads to: that of the
    first event that is an error or a result with a first alternative. *)
Fixpoint first_settling (events : list RecognitionEvent) : Settlement :=
  match events with
  | [] => Pending
  | error_event code :: _ =>
      Rejected (Error ("Speech recognition error: " ++ code))
  | result_event ((alternative :: _) :: _) :: _ =>
      Resolved (Some (transcript alternative))
  | result_event _ :: rest => first_settling rest
  end.

(** A console entry written by [console.warn]. *)
Definition is_warning (k : ConsoleEntry) : Prop :=
  match k with
  | console_warn_entry _ _ => True
  | _ => False
  end.

(** The host calls of a pipeline that stopped once, after those of its
    start. *)
Definition stop_calls (h : Host) (t : nat) : list HostCall :=
  [Call_stop recording; Call_close running;
   Call_readAsDataURL (new_Blob (kept (recorded h t)) "audio/wav")].

(** A browser offering both recognition constructors. *)
Definition dual_host (standard prefixed : list RecognitionEvent) : Host :=
  {| speechSynthesis_in_window := false;
     speechSynthesis_getVoices := [];
     window_AudioContext := true;
     window_webkitAudioContext := true;
     window_SpeechRecognition := Some (recognizer standard);
     window_webkitSpeechRecognition := Some (recognizer prefixed);
     utterance_end := None;
     end_before_timer := false;
     recorded := fun _ => [];
     reader_fails := false;
     stop_inactive_throws := false |}.

(** * Properties *)

Arguments startsWith : simpl never.
Arguments includes : simpl never.
Arguments truthy_string : simpl never.
Arguments String.append : simpl never.
Arguments edge_function_configured : simpl never.
Arguments synthesizeWithBrowser : simpl never.
Arguments request_body : simpl never.
Arguments timer_delay : simpl never.

(** Unfold the statement combinators of the service. *)
Ltac service_steps :=
  unfold synthesizeSpeech, synthesizeSpeech_body, listVoices, listVoices_body,
    await_api_post, await_api_get, await_fetch_json,
    call_synthesizeWithBrowser, console_warn, console_error,
    try_catch, bind, await, modify, ret, throw, async_promise; cbn.

(** Case analysis on a scrutinee that contains no other case analysis. *)
Ltac split_innermost :=
  match goal with
  | |- context [match ?x with _ => _ end] =>
      lazymatch x with
      | context [match _ with _ => _ end] => fail
      | _ => destruct x eqn:?
      end
  end.

Ltac split_cases := repeat (split_innermost; cbn).

(** ** The capture pipeline *)

Section PipelineFacts.

Variable h : Host.

Lemma set_chunks_same (c : Capture) : set_chunks (chunks c) c = c.
Proof. destruct c; reflexivity. Qed.

(** The [dataavailable] events append the non-empty fragments. *)
Lemma dataavailable_fold (l : list Blob) (c : Capture) :
  fold_left (fun c data => invoke (ondataavailable data) c) l c
  = set_chunks (chunks c ++ kept l) c.
Proof.
  revert c; induction l as [|data l IH]; intros c; simpl.
  - rewrite app_nil_r. symmetry; apply set_chunks_same.
  - rewrite IH. unfold invoke, ondataavailable.
    destruct (0 <? blob_size data)%nat; simpl.
    + rewrite <- app_assoc. reflexivity.
    + reflexivity.
Qed.

(** What the host does with an inactivated recorder, in one equation. *)
Lemma recorder_events_settles (c : Capture) :
  recorder_events h c =
  let blob := new_Blob (chunks c ++ kept (recorded h (now c))) "audio/wav" in
  let c1 := set_reading blob
              (log_call (Call_readAsDataURL blob)
                 (set_chunks (chunks c ++ kept (recorded h (now c))) c)) in
  if reader_fails h
  then settle (Resolved None) (settle (Rejected (ProgressEvent "error")) c1)
  else settle (Resolved (Some (dataURL blob))) c1.
Proof.
  unfold recorder_events. rewrite dataavailable_fold.
  unfold reader_events. simpl.
  destruct (reader_fails h); reflexivity.
Qed.

(** The state [synthesizeWithBrowser] leaves behind on a capable host. *)
Lemma started_capture_recording (text : string) :
  speechSynthesis_in_window h = true ->
  audio_context_available h = true ->
  started_capture h text =
  let u := {| utt_text := text;
              utt_voice := pick_voice (speechSynthesis_getVoices h);
              utt_rate := 1; utt_pitch := 1 |} in
  {| now := 0; state := recording; context := running; chunks := [];
     promise := Pending; settled_at := None; stopped := 0;
     speaking := Some u;
     timer := Some (timer_delay (String.length text * 100));
     reading := None;
     calls := [Call_new_AudioContext; Call_createMediaStreamDestination;
               Call_new_MediaRecorder; Call_start; Call_speak u;
               Call_setTimeout (String.length text * 100)];
     uncaught := [] |}.
Proof.
  intros Hs Hc.
  unfold started_capture, new_Promise, executor, new_AudioContext.
  unfold audio_context_available in Hc. rewrite Hs, Hc. reflexivity.
Qed.

(** The first stop callback to run on a recording pipeline stops the
    recorder, closes the context and settles the promise. *)
Lemma first_stop (t : nat) (handler : M Capture unit) (c : Capture) :
  is_stop_handler h handler ->
  state c = recording -> promise c = Pending ->
  let blob := new_Blob (chunks c ++ kept (recorded h t)) "audio/wav" in
  let c' := deliver h t handler c in
  promise c' = settlement_of h (dataURL blob) /\
  settled_at c' = Some t /\
  stopped c' = S (stopped c) /\ state c' = inactive /\ context c' = closed /\
  reading c' = Some blob /\
  calls c' = (calls c ++ [Call_stop recording; Call_close (context c);
                          Call_readAsDataURL blob])%list /\
  uncaught c' = uncaught c.
Proof.
  intros Hh Hst Hp. destruct c; simpl in Hst, Hp; subst.
  assert (E : deliver h t handler
                {| now := now0; state := recording; context := context0;
                   chunks := chunks0; promise := Pending;
                   settled_at := settled_at0; stopped := stopped0;
                   speaking := speaking0; timer := timer0;
                   reading := reading0; calls := calls0;
                   uncaught := uncaught0 |}
              = recorder_events h
                {| now := t; state := inactive; context := closed;
                   chunks := chunks0; promise := Pending;
                   settled_at := settled_at0; stopped := S stopped0;
                   speaking := speaking0; timer := timer0;
                   reading := reading0;
                   calls := (calls0 ++ [Call_stop recording])
                            ++ [Call_close context0];
                   uncaught := uncaught0 |})
    by (destruct Hh; subst handler; reflexivity).
  cbv zeta. rewrite E, recorder_events_settles. unfold settlement_of.
  destruct (reader_fails h); simpl; rewrite <- ?app_assoc; simpl;
    repeat split; reflexivity.
Qed.

(** The safeguard on a recorder that is no longer recording does
    nothing but let the clock advance. *)
Lemma timeout_when_inactive (t : nat) (c : Capture) :
  state c = inactive ->
  deliver h t (timeout_fallback h) c = set_now t c.
Proof.
  intros Hst. destruct c; simpl in Hst; subst. reflexivity.
Qed.

(** The completion handler on an inactive recorder still calls
    [stop()], and [close()] unless [stop()] threw. *)
Lemma onend_when_inactive (t : nat) (c : Capture) :
  state c = inactive ->
  deliver h t (utterance_onend h) c =
  if stop_inactive_throws h then
    log_uncaught (DOMException "InvalidStateError")
      (log_call (Call_stop inactive) (set_now t c))
  else
    set_context closed
      (log_call (Call_close (context c))
         (log_call (Call_stop inactive) (set_now t c))).
Proof.
  intros Hst. destruct c; simpl in Hst; subst.
  unfold deliver, invoke, utterance_onend, mediaRecorder_stop, bind, get,
    modify; simpl.
  destruct (stop_inactive_throws h); reflexivity.
Qed.

(** A stop callback that comes second leaves the outcome alone. *)
Lemma later_callback (t : nat) (handler : M Capture unit) (c : Capture) :
  is_stop_handler h handler ->
  state c = inactive -> context c = closed ->
  let c' := deliver h t handler c in
  promise c' = promise c /\ settled_at c' = settled_at c /\
  stopped c' = stopped c /\ state c' = inactive /\ context c' = closed /\
  reading c' = reading c.
Proof.
  intros [-> | ->] Hst Hcx; cbv zeta.
  - rewrite (onend_when_inactive t c Hst).
    destruct (stop_inactive_throws h); destruct c; simpl in *; auto 10.
  - rewrite (timeout_when_inactive t c Hst).
    destruct c; simpl in *; auto 10.
Qed.

Lemma stop_time_cases (text : string) :
  let d := timer_delay (String.length text * 100) in
  match utterance_end h with
  | Some te =>
      if ((te <? d)%nat || ((te =? d)%nat && end_before_timer h))%bool
      then stop_time h text = te
      else stop_time h text = d
  | None => stop_time h text = d
  end.
Proof.
  unfold stop_time.
  destruct (utterance_end h) as [te|]; cbv zeta; [|reflexivity].
  destruct ((te <? _)%nat || _)%bool eqn:Hord.
  - apply Nat.min_l. apply orb_true_iff in Hord as [H|H].
    + apply Nat.ltb_lt in H. lia.
    + apply andb_true_iff in H as [H _]. apply Nat.eqb_eq in H. lia.
  - apply Nat.min_r. apply orb_false_iff in Hord as [H _].
    apply Nat.ltb_ge in H. lia.
Qed.

(** The outcome of the pipeline on a capable host, whatever the order
    of the completion event and the safeguard. *)
Lemma capture_final (text : string) :
  speechSynthesis_in_window h = true ->
  audio_context_available h = true ->
  let t := stop_time h text in
  let c := synthesizeWithBrowser h text in
  promise c = settlement_of h (recording_url h t) /\
  settled_at c = Some t /\
  stopped c = 1 /\ state c = inactive /\ context c = closed /\
  reading c = Some (new_Blob (kept (recorded h t)) "audio/wav").
Proof.
  intros Hs Hc. unfold synthesizeWithBrowser.
  pose proof (stop_time_cases text) as Ht. cbv zeta in Ht.
  rewrite (started_capture_recording text Hs Hc). cbv zeta.
  set (c0 := Build_Capture _ _ _ _ _ _ _ _ _ _ _ _).
  assert (Hst0 : state c0 = recording) by reflexivity.
  assert (Hp0 : promise c0 = Pending) by reflexivity.
  unfold schedule.
  change (speaking c0) with
    (Some {| utt_text := text;
             utt_voice := pick_voice (speechSynthesis_getVoices h);
             utt_rate := 1; utt_pitch := 1 |}).
  change (timer c0)
    with (Some (timer_delay (String.length text * 100))).
  cbv iota beta.
  destruct (utterance_end h) as [te|].
  - destruct ((te <? _)%nat || _)%bool; rewrite Ht; unfold run;
      simpl fold_left.
    + destruct (first_stop te (utterance_onend h) c0
                  (or_introl eq_refl) Hst0 Hp0)
        as (P1 & P2 & P3 & P4 & P5 & P6 & _).
      destruct (later_callback
                  (timer_delay (String.length text * 100))
                  (timeout_fallback h)
                  (deliver h te (utterance_onend h) c0)
                  (or_intror eq_refl) P4 P5)
        as (Q1 & Q2 & Q3 & Q4 & Q5 & Q6).
      rewrite Q1, Q2, Q3, Q4, Q5, Q6, P1, P2, P3, P6. auto 10.
    + destruct (first_stop (timer_delay (String.length text * 100))
                  (timeout_fallback h) c0 (or_intror eq_refl) Hst0 Hp0)
        as (P1 & P2 & P3 & P4 & P5 & P6 & _).
      destruct (later_callback te (utterance_onend h)
                  (deliver h (timer_delay (String.length text * 100))
                     (timeout_fallback h) c0)
                  (or_introl eq_refl) P4 P5)
        as (Q1 & Q2 & Q3 & Q4 & Q5 & Q6).
      rewrite Q1, Q2, Q3, Q4, Q5, Q6, P1, P2, P3, P6. auto 10.
  - rewrite Ht; unfold run; simpl fold_left.
    destruct (first_stop (timer_delay (String.length text * 100))
                (timeout_fallback h) c0 (or_intror eq_refl) Hst0 Hp0)
      as (P1 & P2 & P3 & P4 & P5 & P6 & _).
    rewrite P1, P2, P3, P6. auto 10.
Qed.

(** Without synthesis the pipeline rejects before touching the host. *)
Lemma capture_unsupported (text : string) :
  speechSynthesis_in_window h = false ->
  synthesizeWithBrowser h text =
  settle (Rejected UnsupportedEnvironment) initial_capture.
Proof.
  intros Hs.
  unfold synthesizeWithBrowser, started_capture, new_Promise, executor.
  rewrite Hs. reflexivity.
Qed.

(** Without an audio context constructor the executor throws. *)
Lemma capture_no_context (text : string) :
  speechSynthesis_in_window h = true ->
  audio_context_available h = false ->
  synthesizeWithBrowser h text =
  settle (Rejected (TypeError "undefined is not a constructor"))
         initial_capture.
Proof.
  intros Hs Hc. unfold audio_context_available in Hc.
  unfold synthesizeWithBrowser, started_capture, new_Promise, executor,
    new_AudioContext.
  rewrite Hs, Hc. reflexivity.
Qed.

(** The recording is always labelled [audio/wav]. *)
Lemma recording_url_tagged (t : nat) : tagged "audio/wav" (recording_url h t).
Proof.
  unfold tagged, recording_url, dataURL, startsWith.
  generalize (base64 (blob_bytes (new_Blob (kept (recorded h t)) "audio/wav"))).
  intros s. destruct s; reflexivity.
Qed.

(** The pipeline's promise always settles, and a rejection has one of
    three causes. *)
Lemma capture_promise (text : string) :
  let p := promise (synthesizeWithBrowser h text) in
  (exists s, p = Resolved (Some s) /\ tagged "audio/wav" s /\
             speechSynthesis_in_window h = true /\
             audio_context_available h = true /\ reader_fails h = false) \/
  (exists e, p = Rejected e /\ rejection_cause h e).
Proof.
  cbv zeta. unfold rejection_cause.
  destruct (speechSynthesis_in_window h) eqn:Hs.
  - destruct (audio_context_available h) eqn:Hc.
    + destruct (capture_final text Hs Hc) as (P & _). rewrite P.
      unfold settlement_of. destruct (reader_fails h).
      * right. eexists. split; [reflexivity|]. auto 10.
      * left. eexists. split; [reflexivity|].
        split; [apply recording_url_tagged|auto].
    + rewrite (capture_no_context text Hs Hc). right.
      eexists. split; [reflexivity|]. right; left. eauto.
  - rewrite (capture_unsupported text Hs). right.
    eexists. split; [reflexivity|]. auto.
Qed.

End PipelineFacts.

(** ** Strings *)

Lemma prefix_append (p s : string) : String.prefix p (p ++ s) = true.
Proof.
  induction p as [|a p IH]; simpl.
  - destruct s; reflexivity.
  - destruct (ascii_dec a a) as [_|N]; [exact IH | now elim N].
Qed.

Lemma prefix_inv (p s : string) :
  String.prefix p s = true -> exists r, s = p ++ r.
Proof.
  revert s; induction p as [|a p IH]; intros s H.
  - exists s. reflexivity.
  - destruct s as [|b s]; simpl in H; [destruct p; discriminate|].
    destruct (ascii_dec a b) as [<-|]; [|discriminate].
    destruct (IH s H) as [r ->]. exists r. reflexivity.
Qed.

Lemma truthy_string_true (s : string) : truthy_string s = true <-> s <> "".
Proof.
  unfold truthy_string. rewrite negb_true_iff.
  destruct (String.eqb_spec s ""); split; congruence.
Qed.

(** A payload wrapped by a remote tier is tagged [audio/mpeg]. *)
Lemma wrapped_tagged (payload : string) :
  tagged "audio/mpeg" ("data:audio/mpeg;base64," ++ payload).
Proof. exact (prefix_append "data:audio/mpeg;base64," payload). Qed.

(** The two format tags exclude each other. *)
Lemma tags_differ (s : string) :
  tagged "audio/wav" s -> ~ tagged "audio/mpeg" s.
Proof.
  unfold tagged, startsWith. intros Hw Hm.
  apply prefix_inv in Hw as [r ->]. discriminate Hm.
Qed.

(** ** The cascading controller *)

Section ControllerFacts.

Variable env : Env.
Variable text : string.
Variable voiceId : option string.
Variable options : option SynthesisOptions.

(** The guard of the Edge Function call is the configuration test. *)
Lemma configured_iff :
  edge_function_configured (VITE_SUPABASE_URL env) (VITE_SUPABASE_ANON_KEY env)
  = true <-> secondary_configured env.
Proof.
  unfold edge_function_configured, secondary_configured.
  destruct (VITE_SUPABASE_URL env) as [u|],
           (VITE_SUPABASE_ANON_KEY env) as [k|];
    split; intros H; try discriminate;
    try (destruct H as (u' & k' & H1 & H2 & _); discriminate).
  - apply andb_true_iff in H as [H Hk]. apply andb_true_iff in H as [H Hu].
    apply andb_true_iff in H as [Tu Tk].
    apply truthy_string_true in Tu, Tk. apply negb_true_iff in Hu, Hk.
    exists u, k. auto 10.
  - destruct H as (u' & k' & H1 & H2 & Tu & Tk & Hu & Hk).
    injection H1 as <-. injection H2 as <-.
    apply truthy_string_true in Tu, Tk. rewrite Tu, Tk, Hu, Hk. reflexivity.
Qed.

(** A failed provider does not pass the success test of the code. *)
Lemma failed_test (c : Completion SynthesisData) :
  provider_failed c ->
  match c with
  | Normal d => truthy_flag (success d) && truthy (audio d) = false
  | Throw _ => True
  end.
Proof.
  destruct c as [d|e]; simpl; [|trivial].
  intros [H|H]; rewrite H; [reflexivity | apply andb_false_r].
Qed.

(** The primary tier succeeded. *)
Lemma primary_success (d : SynthesisData) (payload : string) :
  primary_response env text voiceId options = Normal d ->
  success d = Some true -> audio d = Some payload -> payload <> "" ->
  synthesizeSpeech env text voiceId options =
  (Resolved (Some (if startsWith payload "data:" then payload
                   else "data:audio/mpeg;base64," ++ payload)),
   {| invoked := [primary_call text voiceId options]; console := [] |}).
Proof.
  unfold primary_response. intros HA Hs Ha Hne.
  apply truthy_string_true in Hne.
  service_steps. rewrite HA, Hs, Ha. cbn. rewrite Hne. cbn.
  destruct (startsWith payload "data:"); reflexivity.
Qed.

(** The primary tier failed and the secondary tier succeeded. *)
Lemma secondary_success (d : SynthesisData) (payload : string) :
  provider_failed (primary_response env text voiceId options) ->
  secondary_configured env ->
  secondary_response env text voiceId options = Normal d ->
  success d = Some true -> audio d = Some payload -> payload <> "" ->
  let r := synthesizeSpeech env text voiceId options in
  fst r = Resolved (Some ("data:audio/mpeg;base64," ++ payload)) /\
  invoked (snd r) = [primary_call text voiceId options;
                     secondary_call env text voiceId options].
Proof.
  unfold primary_response, secondary_response.
  intros HA HC HB Hs Ha Hne.
  apply failed_test in HA. apply configured_iff in HC.
  apply truthy_string_true in Hne.
  service_steps.
  destruct (api_post env _ _) as [dA|e]; cbn.
  - rewrite HA, HC. cbn. rewrite HB, Hs, Ha. cbn. rewrite Hne. cbn. auto.
  - rewrite HC. cbn. rewrite HB, Hs, Ha. cbn. rewrite Hne. cbn. auto.
Qed.

(** The primary tier failed and there is no secondary tier. *)
Lemma capture_direct :
  provider_failed (primary_response env text voiceId options) ->
  ~ secondary_configured env ->
  let r := synthesizeSpeech env text voiceId options in
  fst r = promise (synthesizeWithBrowser (window env) text) /\
  invoked (snd r) = [primary_call text voiceId options;
                     Call_synthesizeWithBrowser text].
Proof.
  unfold primary_response. intros HA HC.
  apply failed_test in HA.
  assert (HC' : edge_function_configured (VITE_SUPABASE_URL env)
                  (VITE_SUPABASE_ANON_KEY env) = false).
  { destruct (edge_function_configured _ _) eqn:E; [|reflexivity].
    apply configured_iff in E. contradiction. }
  service_steps.
  destruct (api_post env _ _) as [dA|e]; cbn.
  - rewrite HA, HC'. cbn. auto.
  - rewrite HC'. cbn. auto.
Qed.

(** Every result is a remote data URL or the capture tier's promise. *)
Lemma synthesizeSpeech_result :
  let r := fst (synthesizeSpeech env text voiceId options) in
  (exists s, r = Resolved (Some s) /\ self_describing s) \/
  r = promise (synthesizeWithBrowser (window env) text).
Proof.
  service_steps. split_cases;
    try (right; reflexivity);
    left; eexists; (split; [reflexivity|]); try reflexivity.
  unfold self_describing. now apply negb_false_iff.
Qed.

(** The secondary endpoint is called only behind its guard. *)
Lemma secondary_only_if_configured (k : ServiceCall) :
  In k (invoked (snd (synthesizeSpeech env text voiceId options))) ->
  is_secondary_call k ->
  edge_function_configured (VITE_SUPABASE_URL env) (VITE_SUPABASE_ANON_KEY env)
  = true.
Proof.
  service_steps. split_cases; cbn; intros Hin Hk; try reflexivity;
    repeat (destruct Hin as [<- | Hin]; [contradiction Hk|]);
    contradiction Hin.
Qed.

(** The first thing every call does is ask the primary endpoint. *)
Lemma primary_first :
  exists rest,
    invoked (snd (synthesizeSpeech env text voiceId options))
    = primary_call text voiceId options :: rest.
Proof.
  service_steps. split_cases; eexists; reflexivity.
Qed.

End ControllerFacts.

(** ** The recognition bridge *)

Lemma rec_settled_stable (events : list RecognitionEvent) (r : Recognizing) :
  rec_promise r <> Pending ->
  rec_promise (fold_left (fun r ev => rec_invoke (rec_handler ev) r) events r)
  = rec_promise r.
Proof.
  revert r; induction events as [|ev events IH]; intros r Hr; [reflexivity|].
  simpl fold_left.
  assert (E : rec_promise (rec_invoke (rec_handler ev) r) = rec_promise r).
  { destruct r as [ss p k u]; simpl in Hr.
    destruct ev as [results|code];
      unfold rec_invoke, rec_handler, onresult, onerror, rec_resolve,
        rec_reject, rec_console_log, rec_settle, bind, modify, throw; simpl.
    - destruct results as [|first results]; [reflexivity|].
      destruct first as [|alternative first]; [reflexivity|].
      simpl. destruct p; try reflexivity. now elim Hr.
    - destruct p; try reflexivity. now elim Hr. }
  rewrite IH; rewrite E; auto.
Qed.

Lemma rec_sessions_stable (events : list RecognitionEvent) (r : Recognizing) :
  sessions (fold_left (fun r ev => rec_invoke (rec_handler ev) r) events r)
  = sessions r.
Proof.
  revert r; induction events as [|ev events IH]; intros r; [reflexivity|].
  simpl fold_left. rewrite IH.
  destruct r as [ss p k u].
  destruct ev as [results|code];
    unfold rec_invoke, rec_handler, onresult, onerror, rec_resolve,
      rec_reject, rec_console_log, rec_settle, bind, modify, throw; simpl.
  - destruct results as [|first results]; [reflexivity|].
    destruct first as [|alternative first]; [reflexivity|].
    simpl. destruct p; reflexivity.
  - destruct p; reflexivity.
Qed.

(** ** Timers and the executor *)

(** A timer never runs later than requested. *)
Lemma timer_delay_le (requested : nat) : timer_delay requested <= requested.
Proof.
  unfold timer_delay. cbv zeta.
  destruct (_ <? _)%N; [|lia].
  pose proof (N.Div0.mod_le (N.of_nat requested) 4294967296) as H.
  lia.
Qed.

(** A delay within the signed 32-bit range is kept as requested. *)
Lemma timer_delay_fits (requested : nat) :
  fits_timer requested -> timer_delay requested = requested.
Proof.
  unfold fits_timer, timer_delay. intros H. cbv zeta.
  rewrite N.mod_small by lia.
  destruct (N.ltb_spec (N.of_nat requested) 2147483648); lia.
Qed.

(** The promise is still pending when [synthesizeWithBrowser] returns
    exactly when the executor neither rejected nor threw. *)
Lemma started_pending_iff (h : Host) (text : string) :
  promise (started_capture h text) = Pending <->
  speechSynthesis_in_window h = true /\ audio_context_available h = true.
Proof.
  split.
  - intros Hp.
    destruct (speechSynthesis_in_window h) eqn:Hs.
    + destruct (audio_context_available h) eqn:Hc; [auto|].
      unfold audio_context_available in Hc.
      unfold started_capture, new_Promise, executor, new_AudioContext in Hp.
      rewrite Hs, Hc in Hp. discriminate Hp.
    + unfold started_capture, new_Promise, executor in Hp.
      rewrite Hs in Hp. discriminate Hp.
  - intros [Hs Hc]. rewrite (started_capture_recording h text Hs Hc).
    reflexivity.
Qed.

(** A result that is not a remote tier's URL is the promise of the
    capture pipeline, which was then called. *)
Lemma remote_url_or_capture (env : Env) (text : string)
  (voiceId : option string) (options : option SynthesisOptions) :
  let r := synthesizeSpeech env text voiceId options in
  (exists s, fst r = Resolved (Some s) /\ self_describing s) \/
  (fst r = promise (synthesizeWithBrowser (window env) text) /\
   In (Call_synthesizeWithBrowser text) (invoked (snd r))).
Proof.
  service_steps. split_cases;
    try (right; split; [reflexivity | simpl; auto]; fail);
    left; eexists; (split; [reflexivity|]); try reflexivity.
  unfold self_describing. now apply negb_false_iff.
Qed.

(** * The claims *)

(** ** Cascading synthesis controller *)

(** C2.  If the primary endpoint answers with success flag true and a
    non-empty audio payload, [synthesizeSpeech] resolves with the payload
    itself when it already starts with [data:], and otherwise with the
    payload behind the prefix [data:audio/mpeg;base64,]; the primary
    request is the only call made, so neither the secondary endpoint nor
    the capture pipeline is invoked. *)
Theorem primary_success_is_returned (env : Env) (text : string)
  (voiceId : option string) (options : option SynthesisOptions)
  (d : SynthesisData) (payload : string) :
  primary_response env text voiceId options = Normal d ->
  success d = Some true -> audio d = Some payload -> payload <> "" ->
  let r := synthesizeSpeech env text voiceId options in
  (startsWith payload "data:" = false ->
   fst r = Resolved (Some ("data:audio/mpeg;base64," ++ payload))) /\
  (startsWith payload "data:" = true -> fst r = Resolved (Some payload)) /\
  invoked (snd r) = [primary_call text voiceId options].
Proof.
  intros HA Hs Ha Hne. cbv zeta.
  rewrite (primary_success env text voiceId options d payload HA Hs Ha Hne).
  simpl. repeat split; intros ->; reflexivity.
Qed.

Lemma primary_success_is_returned_witness :
  let env := sample_env (synthesized "QUJD") None None network_error
               (Throw (Error "Network Error")) silent_host in
  let r := synthesizeSpeech env "hi" None None in
  fst r = Resolved (Some "data:audio/mpeg;base64,QUJD") /\
  invoked (snd r) = [primary_call "hi" None None].
Proof.
  cbv zeta.
  destruct (primary_success_is_returned
              (sample_env (synthesized "QUJD") None None network_error
                 (Throw (Error "Network Error")) silent_host)
              "hi" None None
              {| success := Some true; audio := Some "QUJD" |} "QUJD"
              eq_refl eq_refl eq_refl ltac:(discriminate))
    as (Hraw & _ & Hcalls).
  split; [apply Hraw; reflexivity | exact Hcalls].
Defined.

(** C5.  The secondary endpoint is requested only when endpoint and
    credential are both present and neither contains [your_]; when the
    primary tier failed (threw, falsy success flag or missing payload) and
    the secondary tier is not configured, the result is the promise of
    [synthesizeWithBrowser(text)], called right after the primary
    request. *)
Theorem secondary_guard_and_direct_capture (env : Env) (text : string)
  (voiceId : option string) (options : option SynthesisOptions) :
  let r := synthesizeSpeech env text voiceId options in
  (forall k, In k (invoked (snd r)) -> is_secondary_call k ->
             secondary_configured env) /\
  (provider_failed (primary_response env text voiceId options) ->
   ~ secondary_configured env ->
   fst r = promise (synthesizeWithBrowser (window env) text) /\
   invoked (snd r) = [primary_call text voiceId options;
                      Call_synthesizeWithBrowser text]).
Proof.
  cbv zeta. split.
  - intros k Hin Hk. apply configured_iff.
    exact (secondary_only_if_configured env text voiceId options k Hin Hk).
  - intros HA HC. exact (capture_direct env text voiceId options HA HC).
Qed.

Lemma secondary_guard_and_direct_capture_witness :
  let env := offline_env silent_host in
  let r := synthesizeSpeech env "hi" (Some "21m00Tcm4TlvDq8ikWAM") None in
  provider_failed (primary_response env "hi" (Some "21m00Tcm4TlvDq8ikWAM") None)
  /\ ~ secondary_configured env
  /\ fst r = promise (synthesizeWithBrowser silent_host "hi")
  /\ invoked (snd r) = [primary_call "hi" (Some "21m00Tcm4TlvDq8ikWAM") None;
                        Call_synthesizeWithBrowser "hi"].
Proof.
  cbv zeta.
  assert (HA : provider_failed
                 (primary_response (offline_env silent_host) "hi"
                    (Some "21m00Tcm4TlvDq8ikWAM") None)) by exact I.
  assert (HC : ~ secondary_configured (offline_env silent_host)).
  { intros (u & k & Hu & _ & _ & _ & Hm & _).
    injection Hu as <-. vm_compute in Hm. discriminate Hm. }
  split; [exact HA|]. split; [exact HC|].
  exact (proj2 (secondary_guard_and_direct_capture (offline_env silent_host)
                  "hi" (Some "21m00Tcm4TlvDq8ikWAM") None) HA HC).
Defined.

(** C6 (what the code does).  The secondary tier prefixes every payload:
    an Edge Function answer that is already a [data:] URL comes back with
    a second [data:audio/mpeg;base64,] in front, while the primary tier
    returns the same answer unchanged. *)
Theorem secondary_prefixes_data_url :
  let payload := "data:audio/mpeg;base64,QUJD" in
  let through_secondary :=
    synthesizeSpeech (edge_env (synthesized payload) silent_host)
      "hi" None None in
  let through_primary :=
    synthesizeSpeech
      (sample_env (synthesized payload) None None network_error
         (Throw (Error "Network Error")) silent_host)
      "hi" None None in
  startsWith payload "data:" = true /\
  fst through_secondary =
    Resolved (Some "data:audio/mpeg;base64,data:audio/mpeg;base64,QUJD") /\
  fst through_secondary <> Resolved (Some payload) /\
  fst through_primary = Resolved (Some payload).
Proof.
  cbv zeta. repeat split; try reflexivity. vm_compute. discriminate.
Qed.

(** ** Voice catalog *)

(** C7.  [listVoices] always resolves, never with an empty list: with
    the list of the remote answer when that list is non-empty, and with
    [getMockVoices()] when the remote call throws or its [voices] is
    missing or empty; the mock catalog has exactly 4 named entries with
    pairwise distinct ids. *)
Theorem listVoices_never_empty (env : Env) :
  let remote := api_get env "/agent/voice/voices" in
  let r := fst (listVoices env) in
  (exists vs, r = Normal vs /\ vs <> []) /\
  (forall e, remote = Throw e -> r = Normal getMockVoices) /\
  (forall d, remote = Normal d -> voices d = None \/ voices d = Some [] ->
             r = Normal getMockVoices) /\
  (forall d vs, remote = Normal d -> voices d = Some vs -> vs <> [] ->
                r = Normal vs) /\
  List.length getMockVoices = 4 /\
  NoDup (map voice_id getMockVoices) /\
  Forall (fun v => name v <> "") getMockVoices.
Proof.
  cbv zeta. service_steps. repeat split.
  - destruct (api_get env _) as [d|e]; cbn.
    + destruct (voices d) as [[|v vs]|]; cbn; eexists;
        (split; [reflexivity | discriminate]).
    + eexists; split; [reflexivity | discriminate].
  - intros e ->. reflexivity.
  - intros d -> [-> | ->]; reflexivity.
  - intros d vs -> -> Hne. destruct vs; [now elim Hne | reflexivity].
  - repeat constructor; simpl; intuition discriminate.
  - repeat constructor; discriminate.
Qed.

Lemma listVoices_never_empty_witness :
  fst (listVoices (edge_env network_error silent_host)) = Normal getMockVoices.
Proof.
  destruct (listVoices_never_empty (edge_env network_error silent_host))
    as (_ & _ & Hempty & _).
  exact (Hempty {| voices := Some [] |} eq_refl (or_intror eq_refl)).
Defined.

(** ** Format of the result *)

(** C9.  The format tag follows the tier: a raw payload accepted from the
    primary or from the secondary endpoint is returned tagged
    [audio/mpeg]; the capture tier builds its blob with type [audio/wav]
    and, when it resolves, resolves with a URL tagged [audio/wav]; no URL
    carries both tags. *)
Theorem format_tag_follows_tier (env : Env) (text : string)
  (voiceId : option string) (options : option SynthesisOptions) :
  let r := fst (synthesizeSpeech env text voiceId options) in
  let c := synthesizeWithBrowser (window env) text in
  (forall d payload,
     primary_response env text voiceId options = Normal d ->
     success d = Some true -> audio d = Some payload -> payload <> "" ->
     startsWith payload "data:" = false ->
     exists s, r = Resolved (Some s) /\ tagged "audio/mpeg" s) /\
  (forall d payload,
     provider_failed (primary_response env text voiceId options) ->
     secondary_configured env ->
     secondary_response env text voiceId options = Normal d ->
     success d = Some true -> audio d = Some payload -> payload <> "" ->
     startsWith payload "data:" = false ->
     exists s, r = Resolved (Some s) /\ tagged "audio/mpeg" s) /\
  (forall blob, reading c = Some blob -> blob_type blob = "audio/wav") /\
  (forall v, promise c = Resolved v ->
     exists s, v = Some s /\ tagged "audio/wav" s) /\
  (forall s, tagged "audio/wav" s -> ~ tagged "audio/mpeg" s).
Proof.
  cbv zeta. repeat split.
  - intros d payload HA Hs Ha Hne Hraw.
    rewrite (primary_success env text voiceId options d payload HA Hs Ha Hne).
    simpl. rewrite Hraw. eexists. split; [reflexivity|apply wrapped_tagged].
  - intros d payload HA HC HB Hs Ha Hne _.
    destruct (secondary_success env text voiceId options d payload
                HA HC HB Hs Ha Hne) as [-> _].
    eexists. split; [reflexivity|apply wrapped_tagged].
  - intros blob.
    destruct (speechSynthesis_in_window (window env)) eqn:Hs.
    + destruct (audio_context_available (window env)) eqn:Hc.
      * destruct (capture_final (window env) text Hs Hc)
          as (_ & _ & _ & _ & _ & ->).
        intros [= <-]. reflexivity.
      * rewrite (capture_no_context (window env) text Hs Hc). discriminate.
    + rewrite (capture_unsupported (window env) text Hs). discriminate.
  - intros v Hv.
    destruct (capture_promise (window env) text)
      as [(s & Hp & Ht & _) | (e & Hp & _)]; rewrite Hp in Hv.
    + injection Hv as <-. exists s. auto.
    + discriminate.
  - exact tags_differ.
Qed.

Lemma format_tag_follows_tier_witness :
  (exists s,
     fst (synthesizeSpeech (edge_env (synthesized "QUJD") silent_host)
            "hi" None None) = Resolved (Some s) /\ tagged "audio/mpeg" s) /\
  (exists s,
     promise (synthesizeWithBrowser silent_host "hi") = Resolved (Some s) /\
     tagged "audio/wav" s).
Proof.
  destruct (format_tag_follows_tier (edge_env (synthesized "QUJD") silent_host)
              "hi" None None) as (_ & Hsecondary & _ & Hcapture & _).
  split.
  - apply (Hsecondary {| success := Some true; audio := Some "QUJD" |} "QUJD").
    + exact I.
    + exists "https://project.supabase.co", "anon-key".
      repeat split; try reflexivity; discriminate.
    + reflexivity.
    + reflexivity.
    + reflexivity.
    + discriminate.
    + reflexivity.
  - destruct (Hcapture (Some "data:audio/wav;base64,TWFu") eq_refl)
      as (s & Hs & Ht).
    exists s. split; [|exact Ht]. injection Hs as <-. reflexivity.
Defined.

(** ** Outcomes of a synthesis call *)

(** C1 (amended).  Provider errors never reach the caller: a resolved
    value is a [data:] URL, and a rejection of [synthesizeSpeech] is a
    rejection of the promise of the browser capture tier, which was then
    called.  Without speech synthesis that rejection is the
    unsupported-environment error, and this error comes from no other
    host.  When the capture executor has returned with its promise pending
    (speech synthesis is then present), the call resolves if the reader
    does not fail, and its only rejection is the reader's error event
    handed to [reject]. *)
Theorem synthesizeSpeech_outcomes (env : Env) (text : string)
  (voiceId : option string) (options : option SynthesisOptions) :
  let h := window env in
  let r := synthesizeSpeech env text voiceId options in
  let capture := synthesizeWithBrowser h text in
  (forall v, fst r = Resolved v -> exists s, v = Some s /\ self_describing s) /\
  (forall e, fst r = Rejected e ->
     promise capture = Rejected e /\
     In (Call_synthesizeWithBrowser text) (invoked (snd r))) /\
  (forall e, fst r = Rejected e -> speechSynthesis_in_window h = false ->
     e = UnsupportedEnvironment) /\
  (fst r = Rejected UnsupportedEnvironment ->
   speechSynthesis_in_window h = false) /\
  (promise (started_capture h text) = Pending ->
   speechSynthesis_in_window h = true /\
   (reader_fails h = false ->
    exists s, fst r = Resolved (Some s) /\ self_describing s) /\
   (forall e, fst r = Rejected e ->
      reader_fails h = true /\ e = ProgressEvent "error")).
Proof.
  cbv zeta.
  assert (Hwav : forall s, tagged "audio/wav" s -> self_describing s).
  { intros s Ht. apply prefix_inv in Ht as [r' ->]. reflexivity. }
  assert (Hunsupported :
            promise (synthesizeWithBrowser (window env) text)
            = Rejected UnsupportedEnvironment ->
            speechSynthesis_in_window (window env) = false).
  { intros Hp. destruct (speechSynthesis_in_window (window env)) eqn:Hs;
      [|reflexivity].
    destruct (capture_promise (window env) text)
      as [(s & Hr & _) | (e & Hr & Hcause)]; rewrite Hr in Hp.
    - discriminate Hp.
    - injection Hp as ->.
      destruct Hcause
        as [(Hs' & _) | [(_ & _ & msg & He) | (_ & _ & _ & He)]];
        [congruence | discriminate He | discriminate He]. }
  destruct (remote_url_or_capture env text voiceId options)
    as [(s & Hr & Hs) | (Hr & Hcalled)]; rewrite Hr.
  - split; [intros v [= <-]; exists s; auto|].
    split; [discriminate|]. split; [discriminate|]. split; [discriminate|].
    intros Hp. apply started_pending_iff in Hp as [Hsp _].
    split; [exact Hsp|]. split; [|discriminate].
    intros _. exists s. auto.
  - split.
    { intros v Hv.
      destruct (capture_promise (window env) text)
        as [(s & Hp & Ht & _) | (e & Hp & _)]; rewrite Hp in Hv.
      - injection Hv as <-. exists s. auto.
      - discriminate Hv. }
    split; [intros e He; auto|].
    split.
    { intros e He Hs.
      rewrite (capture_unsupported (window env) text Hs) in He.
      injection He as <-. reflexivity. }
    split; [exact Hunsupported|].
    intros Hp. apply started_pending_iff in Hp as [Hsp Hcx].
    destruct (capture_final (window env) text Hsp Hcx) as (P & _).
    rewrite P. unfold settlement_of.
    split; [exact Hsp|]. destruct (reader_fails (window env)).
    + split; [discriminate|]. intros e [= <-]. auto.
    + split; [|discriminate]. intros _. eexists.
      split; [reflexivity|]. apply Hwav, recording_url_tagged.
Qed.

Lemma synthesizeSpeech_outcomes_witness :
  promise (started_capture silent_host "hi") = Pending /\
  exists s,
    fst (synthesizeSpeech (offline_env silent_host) "hi" None None)
    = Resolved (Some s) /\ self_describing s.
Proof.
  split; [reflexivity|].
  destruct (synthesizeSpeech_outcomes (offline_env silent_host) "hi" None None)
    as (_ & _ & _ & _ & Hstarted).
  destruct (Hstarted eq_refl) as (_ & Hok & _).
  apply Hok; reflexivity.
Defined.

(** C1 (as stated, refuted).  On a host with speech synthesis whose reader
    fails on the recording, a call with non-empty text rejects, and not
    with the unsupported-environment error. *)
Lemma synthesizeSpeech_rejects_with_reader_error :
  "hi" <> "" /\
  speechSynthesis_in_window (window (offline_env unreadable_host)) = true /\
  fst (synthesizeSpeech (offline_env unreadable_host) "hi" None None)
  = Rejected (ProgressEvent "error") /\
  ProgressEvent "error" <> UnsupportedEnvironment.
Proof.
  repeat split; try reflexivity; discriminate.
Qed.

(** ** The timeout safeguard *)

(** C3 (amended).  On a host with speech synthesis and an audio context
    constructor whose utterance never reports its end, the safeguard
    requested for [text.length * 100] is the only callback; it runs no
    later than that, and exactly then when the number fits the timer's
    signed 32 bits.  It finds the recorder recording, stops it and closes
    the context, and the promise settles at that time, with the
    recording's data URL, or with the reader's error event when the reader
    fails.  The recorder went to stopped once. *)
Theorem safeguard_stops_capture (h : Host) (text : string) :
  speechSynthesis_in_window h = true ->
  audio_context_available h = true ->
  utterance_end h = None ->
  let requested := String.length text * 100 in
  let c0 := started_capture h text in
  let c := synthesizeWithBrowser h text in
  exists t,
    In (Call_setTimeout requested) (calls c0) /\
    timer c0 = Some t /\ t <= requested /\
    (fits_timer requested -> t = requested) /\
    state c0 = recording /\
    schedule h c0 = [(t, Timeout)] /\
    calls c = (calls c0
               ++ [Call_stop recording; Call_close running;
                   Call_readAsDataURL
                     (new_Blob (kept (recorded h t)) "audio/wav")])%list /\
    uncaught c = [] /\
    state c = inactive /\ context c = closed /\ stopped c = 1 /\
    settled_at c = Some t /\
    promise c = settlement_of h (recording_url h t).
Proof.
  intros Hs Hc He. cbv zeta.
  exists (timer_delay (String.length text * 100)).
  unfold synthesizeWithBrowser.
  rewrite (started_capture_recording h text Hs Hc). cbv zeta.
  set (c0 := Build_Capture _ _ _ _ _ _ _ _ _ _ _ _).
  assert (Hsched : schedule h c0
                   = [(timer_delay (String.length text * 100), Timeout)])
    by (unfold schedule; rewrite He; reflexivity).
  rewrite Hsched. unfold run. simpl fold_left.
  destruct (first_stop h (timer_delay (String.length text * 100))
              (timeout_fallback h) c0 (or_intror eq_refl) eq_refl eq_refl)
    as (P1 & P2 & P3 & P4 & P5 & _ & P7 & P8).
  rewrite P1, P2, P3, P4, P5, P7, P8.
  split; [simpl; auto 10|]. split; [reflexivity|].
  split; [apply timer_delay_le|]. split; [apply timer_delay_fits|].
  repeat split; reflexivity.
Qed.

Lemma safeguard_stops_capture_witness :
  let c := synthesizeWithBrowser silent_host "hi" in
  exists t,
    t <= 200 /\ settled_at c = Some t /\ stopped c = 1 /\
    promise c = settlement_of silent_host (recording_url silent_host t).
Proof.
  cbv zeta.
  destruct (safeguard_stops_capture silent_host "hi" eq_refl eq_refl eq_refl)
    as (t & _ & _ & Hle & _ & _ & _ & _ & _ & _ & _ & Hstopped & Hat
        & Hpromise).
  exists t. auto.
Defined.

(** C3 (as stated, refuted).  The utterance never ends, the safeguard
    fires at 200 and stops the recorder, and the promise is rejected, not
    resolved, because the reader failed. *)
Lemma safeguard_then_reader_error :
  let c := synthesizeWithBrowser unreadable_host "hi" in
  utterance_end unreadable_host = None /\
  stopped c = 1 /\ settled_at c = Some 200 /\
  promise c = Rejected (ProgressEvent "error").
Proof.
  cbv zeta. repeat split; reflexivity.
Qed.

(** C4 (what the code does).  Text ["hi"]: the safeguard fires at 200,
    the utterance ends at 500.  The completion handler does not look at the
    recorder's state: it calls [stop()] on the inactive recorder.  Where
    that throws, the error leaves the handler; where it does not, the
    handler goes on to [close()] the closed context.  The promise stays
    settled as it was at 200. *)
Theorem completion_after_safeguard_acts :
  let strict := synthesizeWithBrowser (host_ending_at 500 true) "hi" in
  let lenient := synthesizeWithBrowser (host_ending_at 500 false) "hi" in
  schedule (host_ending_at 500 true)
           (started_capture (host_ending_at 500 true) "hi")
  = [(200, Timeout); (500, Utterance_end)] /\
  (exists before, calls strict = (before ++ [Call_stop inactive])%list) /\
  uncaught strict = [DOMException "InvalidStateError"] /\
  (exists before,
     calls lenient
     = (before ++ [Call_stop inactive; Call_close closed])%list) /\
  uncaught lenient = [] /\
  settled_at strict = Some 200 /\ settled_at lenient = Some 200 /\
  stopped strict = 1 /\ stopped lenient = 1.
Proof.
  cbv zeta. repeat split; try reflexivity.
  - eexists. vm_compute. rewrite <- (app_nil_l [Call_stop inactive]).
    rewrite !app_comm_cons. reflexivity.
  - eexists. vm_compute.
    rewrite <- (app_nil_l [Call_stop inactive; Call_close closed]).
    rewrite !app_comm_cons. reflexivity.
Qed.

(** ** Empty text *)

(** C10 (amended).  The empty string is accepted like any text: the
    primary endpoint is asked first.  On a host with speech synthesis and
    an audio context constructor the safeguard for the empty string is set
    for 0, the recorder is stopped once and the promise settles at 0: with
    the data URL of what was recorded by then, or with the reader's error
    event when the reader fails. *)
Theorem empty_text_settles_at_zero (env : Env) (voiceId : option string)
  (options : option SynthesisOptions) :
  let h := window env in
  speechSynthesis_in_window h = true ->
  audio_context_available h = true ->
  let c := synthesizeWithBrowser h "" in
  (exists rest,
     invoked (snd (synthesizeSpeech env "" voiceId options))
     = primary_call "" voiceId options :: rest) /\
  timer (started_capture h "") = Some 0 /\
  stopped c = 1 /\ state c = inactive /\ context c = closed /\
  settled_at c = Some 0 /\
  promise c = settlement_of h (recording_url h 0).
Proof.
  cbv zeta. intros Hs Hc.
  assert (Ht : stop_time (window env) "" = 0).
  { unfold stop_time.
    change (timer_delay (String.length "" * 100)) with 0.
    destruct (utterance_end (window env)); [apply Nat.min_0_r|reflexivity]. }
  destruct (capture_final (window env) "" Hs Hc)
    as (P1 & P2 & P3 & P4 & P5 & _).
  rewrite Ht in P1, P2.
  split; [apply primary_first|].
  split; [rewrite (started_capture_recording (window env) "" Hs Hc);
          reflexivity|].
  auto 10.
Qed.

Lemma empty_text_settles_at_zero_witness :
  let c := synthesizeWithBrowser (host_ending_at 500 true) "" in
  settled_at c = Some 0 /\ stopped c = 1 /\
  promise c = Resolved (Some "data:audio/wav;base64,TWFu").
Proof.
  cbv zeta.
  destruct (empty_text_settles_at_zero
              (offline_env (host_ending_at 500 true)) None None
              eq_refl eq_refl)
    as (_ & _ & Hstopped & _ & _ & Hat & Hpromise).
  split; [exact Hat|]. split; [exact Hstopped|]. exact Hpromise.
Defined.

(** C10 (as stated, refuted).  For the empty string on a host whose reader
    fails, the pipeline stops the recorder at 0 and rejects. *)
Lemma empty_text_rejects_on_reader_error :
  let c := synthesizeWithBrowser unreadable_host "" in
  speechSynthesis_in_window unreadable_host = true /\
  stopped c = 1 /\ settled_at c = Some 0 /\
  promise c = Rejected (ProgressEvent "error") /\
  fst (synthesizeSpeech (offline_env unreadable_host) "" None None)
  = Rejected (ProgressEvent "error").
Proof.
  cbv zeta. repeat split; reflexivity.
Qed.

(** ** Recognition bridge *)

(** C8.  Without a recognition constructor the promise is rejected with
    the unsupported error by the executor itself, no session having been
    constructed.  With one, exactly one session exists, configured with
    [en-US], no interim results and one alternative, and started; a first
    event that is a result resolves with [results[0][0].transcript], a
    first event that is an error rejects with an [Error] whose message ends
    in the session's error code. *)
Theorem recognizeSpeech_contract (h : Host) :
  (recognition_constructor h = None ->
   recognize_started h
   = (Normal None,
      {| sessions := []; rec_promise := Rejected UnsupportedRecognition;
         rec_console := []; rec_uncaught := [] |}) /\
   recognizeSpeech h = snd (recognize_started h)) /\
  (forall impl, recognition_constructor h = Some impl ->
     sessions (snd (recognize_started h)) = [configured_session] /\
     rec_promise (snd (recognize_started h)) = Pending /\
     sessions (recognizeSpeech h) = [configured_session] /\
     (forall results first alternative rest,
        session_events impl = result_event results :: rest ->
        nth_error results 0 = Some first ->
        nth_error first 0 = Some alternative ->
        rec_promise (recognizeSpeech h)
        = Resolved (Some (transcript alternative))) /\
     (forall code rest,
        session_events impl = error_event code :: rest ->
        rec_promise (recognizeSpeech h)
        = Rejected (Error ("Speech recognition error: " ++ code)))).
Proof.
  unfold recognition_constructor, recognizeSpeech, recognize_started,
    recognize_executor.
  split.
  - intros ->. split; reflexivity.
  - intros impl ->.
    split; [reflexivity|]. split; [reflexivity|].
    split; [cbn; apply rec_sessions_stable|].
    split.
    + intros results first alternative rest Hev Hfirst Halt.
      destruct results as [|first' results]; [discriminate|].
      injection Hfirst as ->.
      destruct first as [|alternative' first]; [discriminate|].
      injection Halt as ->.
      cbn. rewrite Hev. simpl fold_left.
      rewrite rec_settled_stable; [reflexivity|discriminate].
    + intros code rest Hev.
      cbn. rewrite Hev. simpl fold_left.
      rewrite rec_settled_stable; [reflexivity|discriminate].
Qed.

Lemma recognizeSpeech_contract_witness :
  let heard := {| transcript := "hello world"; confidence := 1 |} in
  rec_promise
    (recognizeSpeech (webkit_host [result_event [[heard]]; error_event "aborted"]))
  = Resolved (Some "hello world") /\
  rec_promise (recognizeSpeech silent_host) = Rejected UnsupportedRecognition.
Proof.
  cbv zeta. split.
  - destruct (recognizeSpeech_contract
                (webkit_host
                   [result_event
                      [[{| transcript := "hello world"; confidence := 1 |}]];
                    error_event "aborted"]))
      as (_ & Hsome).
    destruct (Hsome _ eq_refl) as (_ & _ & _ & Hresult & _).
    exact (Hresult _ _ _ _ eq_refl eq_refl eq_refl).
  - destruct (recognizeSpeech_contract silent_host) as (Hnone & _).
    destruct (Hnone eq_refl) as (Hstart & ->).
    rewrite Hstart. reflexivity.
Defined.

(** * Further properties *)

(** ** The cascade as a whole *)

(** The four shapes of the call log. *)
Lemma tiers_in_order_calls (env : Env) (text : string)
  (voiceId : option string) (options : option SynthesisOptions) :
  let calls := invoked (snd (synthesizeSpeech env text voiceId options)) in
  let A := primary_call text voiceId options in
  let B := secondary_call env text voiceId options in
  let C := Call_synthesizeWithBrowser text in
  calls = [A] \/ calls = [A; B] \/ calls = [A; C] \/ calls = [A; B; C].
Proof.
  unfold secondary_call. service_steps. split_cases; auto.
Qed.

(** X1.  The tiers run in their fixed order, each at most once: the
    calls of [synthesizeSpeech] are the primary request, then possibly
    the secondary request, then possibly the capture pipeline, last.
    When the pipeline was called the result is its promise; otherwise
    the result is a resolved [data:] URL of a remote tier. *)
Theorem tiers_in_order (env : Env) (text : string)
  (voiceId : option string) (options : option SynthesisOptions) :
  let r := synthesizeSpeech env text voiceId options in
  let A := primary_call text voiceId options in
  let B := secondary_call env text voiceId options in
  let C := Call_synthesizeWithBrowser text in
  (invoked (snd r) = [A; C] /\
   fst r = promise (synthesizeWithBrowser (window env) text)) \/
  (invoked (snd r) = [A; B; C] /\
   fst r = promise (synthesizeWithBrowser (window env) text)) \/
  ((invoked (snd r) = [A] \/ invoked (snd r) = [A; B]) /\
   exists s, fst r = Resolved (Some s) /\ self_describing s).
Proof.
  unfold secondary_call. service_steps. split_cases;
    try (left; split; reflexivity);
    try (right; left; split; reflexivity);
    right; right; (split; [auto|]); eexists; (split; [reflexivity|]);
    try reflexivity.
  unfold self_describing. now apply negb_false_iff.
Qed.

(** X2.  [synthesizeSpeech] never writes with [console.error]: its outer
    [catch] is never entered.  Each warning carries an error thrown by
    a provider; a provider that answers without a usable payload is
    passed over silently. *)
Theorem warnings_are_thrown_errors (env : Env) (text : string)
  (voiceId : option string) (options : option SynthesisOptions) :
  let r := synthesizeSpeech env text voiceId options in
  let primary := primary_response env text voiceId options in
  let secondary := secondary_response env text voiceId options in
  Forall is_warning (console (snd r)) /\
  (forall k, In k (console (snd r)) ->
     exists e,
       (k = console_warn_entry
              "Failed to synthesize speech via API, using fallback:" e /\
        primary = Throw e) \/
       (k = console_warn_entry
              "Failed to synthesize speech via Edge Function, using browser fallback:"
              e /\
        secondary = Throw e)) /\
  (forall e, primary = Throw e ->
     In (console_warn_entry
           "Failed to synthesize speech via API, using fallback:" e)
        (console (snd r))) /\
  ((exists d, primary = Normal d) -> (exists d, secondary = Normal d) ->
   console (snd r) = []).
Proof.
  unfold primary_response, secondary_response. service_steps.
  split_cases;
    try (match goal with
         | H : _ && truthy None = true |- _ =>
             rewrite andb_false_r in H; discriminate H
         end);
    repeat split;
    try (repeat constructor; fail);
    try (intros k Hin; cbn in Hin;
         repeat (destruct Hin as [<- | Hin];
                 [eexists; (left; split; reflexivity)
                           || (right; split; reflexivity)|]);
         contradiction Hin);
    try (intros e' [= <-]; cbn; auto; fail);
    try (intros e' He'; discriminate He'; fail);
    try (intros [d1 H1] [d2 H2]; (discriminate H1 || discriminate H2); fail);
    try reflexivity.
Qed.

Lemma warnings_are_thrown_errors_witness :
  console (snd (synthesizeSpeech (offline_env silent_host) "hi" None None))
  = [console_warn_entry
       "Failed to synthesize speech via API, using fallback:"
       (Error "Network Error")] /\
  console (snd (synthesizeSpeech
                  (sample_env (Normal {| success := Some false; audio := None |})
                     None None (synthesized "QUJD")
                     (Throw (Error "Network Error")) silent_host)
                  "hi" None None)) = [].
Proof.
  split; [reflexivity|].
  destruct (warnings_are_thrown_errors
              (sample_env (Normal {| success := Some false; audio := None |})
                 None None (synthesized "QUJD")
                 (Throw (Error "Network Error")) silent_host)
              "hi" None None) as (_ & _ & _ & Hsilent).
  apply Hsilent; eexists; reflexivity.
Defined.

(** Both remote tiers answered without a usable payload or threw. *)
Lemma remote_exhausted (env : Env) (text : string)
  (voiceId : option string) (options : option SynthesisOptions) :
  provider_failed (primary_response env text voiceId options) ->
  secondary_configured env ->
  provider_failed (secondary_response env text voiceId options) ->
  let r := synthesizeSpeech env text voiceId options in
  fst r = promise (synthesizeWithBrowser (window env) text) /\
  invoked (snd r) = [primary_call text voiceId options;
                     secondary_call env text voiceId options;
                     Call_synthesizeWithBrowser text].
Proof.
  unfold primary_response, secondary_response, secondary_call.
  intros HA HC HB.
  apply failed_test in HA, HB. apply configured_iff in HC.
  service_steps.
  destruct (api_post env _ _) as [dA|eA]; cbn;
    rewrite ?HA, HC; cbn;
    destruct (fetch_json env _ _ _) as [dB|eB]; cbn;
    rewrite ?HB; cbn; auto.
Qed.

(** A provider either failed or answered with a usable payload. *)
Lemma failed_or_usable (c : Completion SynthesisData) :
  provider_failed c \/
  exists d payload,
    c = Normal d /\ success d = Some true /\ audio d = Some payload /\
    payload <> "".
Proof.
  destruct c as [d|e]; [|left; exact I].
  destruct d as [[[|]|] [payload|]]; simpl; auto.
  destruct (truthy_string payload) eqn:Hp; auto.
  right. exists {| success := Some true; audio := Some payload |}, payload.
  apply truthy_string_true in Hp. auto.
Qed.

Lemma usable_not_failed (d : SynthesisData) (payload : string) :
  success d = Some true -> audio d = Some payload -> payload <> "" ->
  ~ provider_failed (Normal d).
Proof.
  intros Hs Ha Hne. apply truthy_string_true in Hne.
  simpl. rewrite Hs, Ha. simpl. rewrite Hne. intros [H|H]; discriminate H.
Qed.

(** X3.  When the primary tier failed and the configured secondary tier
    failed too (threw, falsy success flag or missing payload), the
    capture pipeline is called third and its promise is the result. *)
Theorem both_remote_tiers_failed (env : Env) (text : string)
  (voiceId : option string) (options : option SynthesisOptions) :
  provider_failed (primary_response env text voiceId options) ->
  secondary_configured env ->
  provider_failed (secondary_response env text voiceId options) ->
  let r := synthesizeSpeech env text voiceId options in
  fst r = promise (synthesizeWithBrowser (window env) text) /\
  invoked (snd r) = [primary_call text voiceId options;
                     secondary_call env text voiceId options;
                     Call_synthesizeWithBrowser text].
Proof.
  intros HA HC HB.
  exact (remote_exhausted env text voiceId options HA HC HB).
Qed.

Lemma both_remote_tiers_failed_witness :
  let env := edge_env (Normal {| success := Some true; audio := Some "" |})
               silent_host in
  fst (synthesizeSpeech env "hi" None None)
  = Resolved (Some "data:audio/wav;base64,TWFu") /\
  List.length (invoked (snd (synthesizeSpeech env "hi" None None))) = 3.
Proof.
  cbv zeta.
  assert (HC : secondary_configured
                 (edge_env (Normal {| success := Some true;
                                      audio := Some "" |}) silent_host)).
  { exists "https://project.supabase.co", "anon-key".
    repeat split; try reflexivity; discriminate. }
  destruct (both_remote_tiers_failed
              (edge_env (Normal {| success := Some true; audio := Some "" |})
                 silent_host) "hi" None None I HC (or_intror eq_refl))
    as [Hr Hcalls].
  rewrite Hr, Hcalls. split; reflexivity.
Defined.

(** X4.  Whenever the secondary endpoint is requested, the URL is the
    configured endpoint followed by [/functions/v1/voice-synthesis], the
    authorization header is [Bearer] and the configured credential, and
    the body is the one the primary endpoint received: no request is
    built from an undefined setting. *)
Theorem secondary_request_is_well_formed (env : Env) (text : string)
  (voiceId : option string) (options : option SynthesisOptions)
  (url authorization : string) (body : SynthesisRequest) :
  In (Call_fetch url authorization body)
     (invoked (snd (synthesizeSpeech env text voiceId options))) ->
  exists u k,
    VITE_SUPABASE_URL env = Some u /\ VITE_SUPABASE_ANON_KEY env = Some k /\
    url = u ++ "/functions/v1/voice-synthesis" /\
    authorization = "Bearer " ++ k /\
    In (Call_api_post "/agent/voice/synthesize" body)
       (invoked (snd (synthesizeSpeech env text voiceId options))).
Proof.
  intros Hin.
  pose proof (secondary_only_if_configured env text voiceId options _ Hin I)
    as HC.
  apply configured_iff in HC. destruct HC as (u & k & Hu & Hk & _).
  exists u, k. split; [exact Hu|]. split; [exact Hk|].
  pose proof (tiers_in_order_calls env text voiceId options) as H.
  cbv zeta in H. unfold secondary_call, primary_call in H.
  rewrite Hu, Hk in H. cbn [interpolate] in H.
  destruct H as [H | [H | [H | H]]]; rewrite H in Hin |- *;
    cbn in Hin |- *;
    repeat (destruct Hin as [Hin | Hin]; try discriminate Hin);
    try contradiction;
    injection Hin as <- <- <-; auto.
Qed.

Lemma secondary_request_is_well_formed_witness :
  exists u k,
    VITE_SUPABASE_URL (edge_env (synthesized "QUJD") silent_host) = Some u /\
    VITE_SUPABASE_ANON_KEY (edge_env (synthesized "QUJD") silent_host)
    = Some k /\
    "https://project.supabase.co/functions/v1/voice-synthesis"
    = u ++ "/functions/v1/voice-synthesis" /\
    "Bearer anon-key" = "Bearer " ++ k /\
    In (Call_api_post "/agent/voice/synthesize"
          (request_body "hi" (Some "21m00Tcm4TlvDq8ikWAM") None))
       (invoked (snd (synthesizeSpeech
                        (edge_env (synthesized "QUJD") silent_host)
                        "hi" (Some "21m00Tcm4TlvDq8ikWAM") None))).
Proof.
  apply (secondary_request_is_well_formed
           (edge_env (synthesized "QUJD") silent_host)
           "hi" (Some "21m00Tcm4TlvDq8ikWAM") None).
  right. left. reflexivity.
Defined.

(** ** The voice catalog's effects *)

(** X5.  [listVoices] asks the remote catalog exactly once and never
    writes with [console.error]; it warns exactly when the remote call
    threw, so a missing or empty list is replaced by the built-in catalog
    without any log entry. *)
Theorem listVoices_effects (env : Env) :
  let w := snd (listVoices env) in
  invoked w = [Call_api_get "/agent/voice/voices"] /\
  Forall is_warning (console w) /\
  (forall e, api_get env "/agent/voice/voices" = Throw e ->
     console w
     = [console_warn_entry
          "Failed to list voices via API, using fallback:" e]) /\
  (forall d, api_get env "/agent/voice/voices" = Normal d -> console w = []).
Proof.
  cbv zeta. service_steps.
  destruct (api_get env _) as [d|e]; cbn.
  - destruct (voices d) as [[|v vs]|]; cbn; repeat split;
      try constructor; try discriminate; reflexivity.
  - repeat split; try (repeat constructor; fail); try discriminate.
    intros e' [= <-]. reflexivity.
Qed.

Lemma listVoices_effects_witness :
  console (snd (listVoices (edge_env network_error silent_host))) = [] /\
  console (snd (listVoices (offline_env silent_host)))
  = [console_warn_entry "Failed to list voices via API, using fallback:"
       (Error "Network Error")].
Proof.
  split.
  - destruct (listVoices_effects (edge_env network_error silent_host))
      as (_ & _ & _ & Hsilent).
    exact (Hsilent _ eq_refl).
  - destruct (listVoices_effects (offline_env silent_host))
      as (_ & _ & Hwarn & _).
    exact (Hwarn _ eq_refl).
Defined.

(** X14.  Which tiers run is decided by the failures before them: the
    secondary endpoint is requested exactly when the primary tier failed
    and the secondary tier is configured, and the capture pipeline is
    called exactly when the primary tier failed and the secondary tier is
    not configured or failed as well. *)
Theorem tier_runs_iff_earlier_failed (env : Env) (text : string)
  (voiceId : option string) (options : option SynthesisOptions) :
  let calls := invoked (snd (synthesizeSpeech env text voiceId options)) in
  let primary := primary_response env text voiceId options in
  let secondary := secondary_response env text voiceId options in
  (In (secondary_call env text voiceId options) calls <->
   provider_failed primary /\ secondary_configured env) /\
  (In (Call_synthesizeWithBrowser text) calls <->
   provider_failed primary /\
   (~ secondary_configured env \/ provider_failed secondary)).
Proof.
  cbv zeta.
  destruct (failed_or_usable (primary_response env text voiceId options))
    as [HA | (d & p & HA & Hs & Ha & Hne)].
  - destruct (edge_function_configured (VITE_SUPABASE_URL env)
                (VITE_SUPABASE_ANON_KEY env)) eqn:HC.
    + apply configured_iff in HC.
      destruct (failed_or_usable
                  (secondary_response env text voiceId options))
        as [HB | (dB & pB & HB & HsB & HaB & HneB)].
      * destruct (remote_exhausted env text voiceId options HA HC HB)
          as [_ ->].
        split; split; intros _; simpl; auto.
      * destruct (secondary_success env text voiceId options dB pB
                    HA HC HB HsB HaB HneB) as [_ ->].
        split; split; simpl; auto.
        -- intros [H | [H | []]]; discriminate H.
        -- intros [_ [H | H]]; [contradiction|].
           rewrite HB in H.
           elim (usable_not_failed dB pB HsB HaB HneB H).
    + assert (HC' : ~ secondary_configured env)
        by (intros H; apply configured_iff in H; congruence).
      destruct (capture_direct env text voiceId options HA HC') as [_ ->].
      split; split; simpl; auto.
      * intros [H | [H | []]]; discriminate H.
      * intros [_ H]. contradiction.
  - rewrite (primary_success env text voiceId options d p HA Hs Ha Hne).
    rewrite HA. simpl.
    split; split.
    + intros [H | []]; discriminate H.
    + intros [H _]. elim (usable_not_failed d p Hs Ha Hne H).
    + intros [H | []]; discriminate H.
    + intros [H _]. elim (usable_not_failed d p Hs Ha Hne H).
Qed.

Lemma tier_runs_iff_earlier_failed_witness :
  In (Call_synthesizeWithBrowser "hi")
     (invoked (snd (synthesizeSpeech (offline_env silent_host)
                      "hi" None None))).
Proof.
  destruct (tier_runs_iff_earlier_failed (offline_env silent_host)
              "hi" None None) as (_ & _ & Hrun).
  apply Hrun. split; [exact I|]. left.
  intros (u & k & Hu & _ & _ & _ & Hm & _).
  injection Hu as <-. vm_compute in Hm. discriminate Hm.
Defined.

(** ** The capture pipeline under every schedule *)

(** X6.  On a host with speech synthesis and an audio context
    constructor, whatever the utterance does, the pipeline's promise
    settles no later than [text.length * 100] and no later than the
    utterance's end; by then the recorder was stopped exactly once and
    the audio context is closed. *)
Theorem capture_settles_by_deadline (h : Host) (text : string) :
  speechSynthesis_in_window h = true ->
  audio_context_available h = true ->
  let c := synthesizeWithBrowser h text in
  exists t,
    settled_at c = Some t /\ promise c <> Pending /\
    t <= String.length text * 100 /\
    (forall te, utterance_end h = Some te -> t <= te) /\
    stopped c = 1 /\ state c = inactive /\ context c = closed.
Proof.
  intros Hs Hc. cbv zeta.
  destruct (capture_final h text Hs Hc) as (P1 & P2 & P3 & P4 & P5 & _).
  exists (stop_time h text). rewrite P1.
  split; [exact P2|]. split.
  { unfold settlement_of. destruct (reader_fails h); discriminate. }
  pose proof (timer_delay_le (String.length text * 100)) as Hle.
  unfold stop_time. destruct (utterance_end h) as [te|].
  - split; [lia|]. split; [|auto].
    intros te' [= <-]. apply Nat.le_min_l.
  - split; [exact Hle|]. split; [|auto]. discriminate.
Qed.

Lemma capture_settles_by_deadline_witness :
  exists t,
    settled_at (synthesizeWithBrowser (host_ending_at 150 true) "hi") = Some t
    /\ t <= 200 /\ t <= 150.
Proof.
  destruct (capture_settles_by_deadline (host_ending_at 150 true) "hi"
              eq_refl eq_refl) as (t & Hat & _ & Hd & He & _).
  exists t. split; [exact Hat|]. split; [exact Hd|]. exact (He 150 eq_refl).
Defined.

(** X7.  When [text.length * 100] fits the timer's signed 32 bits and
    the utterance ends before that deadline, the completion handler does
    the one stop and the safeguard, finding the recorder inactive, does
    nothing: after the start the host sees one [stop()], one [close()]
    and one [readAsDataURL], and no handler throws. *)
Theorem completion_first_is_clean (h : Host) (text : string) (te : nat) :
  speechSynthesis_in_window h = true ->
  audio_context_available h = true ->
  fits_timer (String.length text * 100) ->
  utterance_end h = Some te ->
  te < String.length text * 100 ->
  let c := synthesizeWithBrowser h text in
  calls c = (calls (started_capture h text) ++ stop_calls h te)%list /\
  uncaught c = [] /\ settled_at c = Some te /\ stopped c = 1.
Proof.
  intros Hs Hc Hfit He Hlt. cbv zeta. unfold synthesizeWithBrowser.
  rewrite (started_capture_recording h text Hs Hc). cbv zeta.
  rewrite (timer_delay_fits _ Hfit).
  set (c0 := Build_Capture _ _ _ _ _ _ _ _ _ _ _ _).
  assert (Hsched : schedule h c0
                   = [(te, Utterance_end);
                      (String.length text * 100, Timeout)]).
  { unfold schedule. rewrite He. cbn [speaking timer c0].
    apply Nat.ltb_lt in Hlt. rewrite Hlt. reflexivity. }
  rewrite Hsched. unfold run. simpl fold_left.
  destruct (first_stop h te (utterance_onend h) c0
              (or_introl eq_refl) eq_refl eq_refl)
    as (_ & P2 & P3 & P4 & _ & _ & P7 & P8).
  rewrite (timeout_when_inactive h _ _ P4).
  destruct (deliver h te (utterance_onend h) c0); simpl in *.
  subst. auto.
Qed.

Lemma completion_first_is_clean_witness :
  let c := synthesizeWithBrowser (host_ending_at 150 true) "hi" in
  uncaught c = [] /\ settled_at c = Some 150 /\ stopped c = 1.
Proof.
  cbv zeta.
  destruct (completion_first_is_clean (host_ending_at 150 true) "hi" 150
              eq_refl eq_refl ltac:(vm_compute; discriminate) eq_refl
              ltac:(vm_compute; lia))
    as (_ & Hu & Hat & Hst).
  auto.
Defined.

(** X8.  When [text.length * 100] fits the timer's signed 32 bits and
    the utterance ends after that deadline, the safeguard does the one
    stop and the completion handler still runs its body: it calls
    [stop()] on the inactive recorder, and either that call throws out of
    the handler or the handler goes on to [close()] the closed context.
    The settlement made at the deadline stands. *)
Theorem completion_second_still_acts (h : Host) (text : string) (te : nat) :
  speechSynthesis_in_window h = true ->
  audio_context_available h = true ->
  fits_timer (String.length text * 100) ->
  utterance_end h = Some te ->
  String.length text * 100 < te ->
  let deadline := String.length text * 100 in
  let c := synthesizeWithBrowser h text in
  calls c
  = (calls (started_capture h text) ++ stop_calls h deadline
     ++ (if stop_inactive_throws h then [Call_stop inactive]
         else [Call_stop inactive; Call_close closed]))%list /\
  uncaught c
  = (if stop_inactive_throws h then [DOMException "InvalidStateError"]
     else []) /\
  settled_at c = Some deadline /\ stopped c = 1 /\
  promise c = settlement_of h (recording_url h deadline).
Proof.
  intros Hs Hc Hfit He Hlt. cbv zeta. unfold synthesizeWithBrowser.
  rewrite (started_capture_recording h text Hs Hc). cbv zeta.
  rewrite (timer_delay_fits _ Hfit).
  set (c0 := Build_Capture _ _ _ _ _ _ _ _ _ _ _ _).
  assert (Hsched : schedule h c0
                   = [(String.length text * 100, Timeout);
                      (te, Utterance_end)]).
  { unfold schedule. rewrite He. cbn [speaking timer c0].
    assert (H1 : (te <? String.length text * 100)%nat = false)
      by (apply Nat.ltb_ge; lia).
    assert (H2 : (te =? String.length text * 100)%nat = false)
      by (apply Nat.eqb_neq; lia).
    rewrite H1, H2. reflexivity. }
  rewrite Hsched. unfold run. simpl fold_left.
  destruct (first_stop h (String.length text * 100) (timeout_fallback h) c0
              (or_intror eq_refl) eq_refl eq_refl)
    as (P1 & P2 & P3 & P4 & P5 & _ & P7 & P8).
  rewrite (onend_when_inactive h _ _ P4).
  destruct (deliver h (String.length text * 100) (timeout_fallback h) c0);
    simpl in *.
  subst. unfold recording_url.
  destruct (stop_inactive_throws h); simpl; rewrite <- ?app_assoc; simpl;
    auto.
Qed.

Lemma completion_second_still_acts_witness :
  let c := synthesizeWithBrowser (host_ending_at 500 false) "hi" in
  uncaught c = [] /\ settled_at c = Some 200 /\ stopped c = 1.
Proof.
  cbv zeta.
  destruct (completion_second_still_acts (host_ending_at 500 false) "hi" 500
              eq_refl eq_refl ltac:(vm_compute; discriminate) eq_refl
              ltac:(vm_compute; lia))
    as (_ & Hu & Hat & Hst & _).
  auto.
Defined.

(** ** Capability detection and the pipeline *)

(** X9.  [isSpeechSynthesisSupported()] answers false exactly when
    [synthesizeWithBrowser] rejects with the unsupported-environment
    error; in that case the pipeline has made no call on any host
    object, so nothing is left to release. *)
Theorem synthesis_detector_agrees (h : Host) (text : string) :
  let c := synthesizeWithBrowser h text in
  (isSpeechSynthesisSupported h = false <->
   promise c = Rejected UnsupportedEnvironment) /\
  (isSpeechSynthesisSupported h = false ->
   calls c = [] /\ stopped c = 0 /\ settled_at c = Some 0).
Proof.
  cbv zeta. unfold isSpeechSynthesisSupported. split; [split|].
  - intros Hs. rewrite (capture_unsupported h text Hs). reflexivity.
  - intros Hp. destruct (speechSynthesis_in_window h) eqn:Hs; [|reflexivity].
    destruct (capture_promise h text)
      as [(s & Hr & _) | (e & Hr & Hcause)]; rewrite Hr in Hp.
    + discriminate Hp.
    + injection Hp as ->.
      destruct Hcause as [(Hs' & _) | [(_ & _ & msg & He) | (_ & _ & _ & He)]];
        [congruence | discriminate He | discriminate He].
  - intros Hs. rewrite (capture_unsupported h text Hs). auto.
Qed.

Lemma synthesis_detector_agrees_witness :
  promise (synthesizeWithBrowser (dual_host [] []) "hi")
  = Rejected UnsupportedEnvironment /\
  calls (synthesizeWithBrowser (dual_host [] []) "hi") = [].
Proof.
  destruct (synthesis_detector_agrees (dual_host [] []) "hi")
    as ((Hrej & _) & Hnone).
  split; [exact (Hrej eq_refl) | exact (proj1 (Hnone eq_refl))].
Defined.

(** ** What is recorded *)

Lemma kept_bytes (fragments : list Blob) :
  flat_map blob_bytes (kept fragments) = flat_map blob_bytes fragments.
Proof.
  induction fragments as [|data l IH]; [reflexivity|].
  unfold kept in *. simpl.
  destruct (0 <? blob_size data)%nat eqn:Hsize; simpl.
  - now rewrite IH.
  - rewrite IH. apply Nat.ltb_ge in Hsize. unfold blob_size in Hsize.
    destruct (blob_bytes data); [reflexivity | simpl in Hsize; lia].
Qed.

(** X10.  Dropping the empty fragments loses nothing: on a capable host
    whose reader succeeds the promise resolves with
    [data:audio/wav;base64,] followed by the base64 of all bytes the
    recorder handed over by the stop, in their order; the fragments' own
    MIME types are discarded. *)
Theorem recording_holds_every_byte (h : Host) (text : string) :
  speechSynthesis_in_window h = true ->
  audio_context_available h = true ->
  reader_fails h = false ->
  promise (synthesizeWithBrowser h text)
  = Resolved
      (Some ("data:audio/wav;base64,"
             ++ base64 (flat_map blob_bytes
                          (recorded h (stop_time h text))))).
Proof.
  intros Hs Hc Hr.
  destruct (capture_final h text Hs Hc) as (P1 & _). rewrite P1.
  unfold settlement_of, recording_url, dataURL, new_Blob. rewrite Hr.
  cbn [blob_type blob_bytes]. rewrite kept_bytes. reflexivity.
Qed.

Lemma recording_holds_every_byte_witness :
  promise (synthesizeWithBrowser silent_host "hi")
  = Resolved (Some "data:audio/wav;base64,TWFu").
Proof.
  exact (recording_holds_every_byte silent_host "hi" eq_refl eq_refl eq_refl).
Defined.

(** ** Voice selection *)



(** ** The recognition bridge under every event sequence *)

Lemma rec_fold_first_settling (events : list RecognitionEvent)
  (r : Recognizing) :
  rec_promise r = Pending ->
  rec_promise (fold_left (fun r ev => rec_invoke (rec_handler ev) r) events r)
  = first_settling events.
Proof.
  revert r; induction events as [|ev events IH]; intros r Hr;
    [exact Hr|].
  simpl fold_left. destruct r as [ss p k u]; simpl in Hr; subst p.
  destruct ev as [results|code].
  - destruct results as [|[|alternative first] results].
    + apply IH. reflexivity.
    + apply IH. reflexivity.
    + rewrite rec_settled_stable; [reflexivity|discriminate].
  - rewrite rec_settled_stable; [reflexivity|discriminate].
Qed.

(** X12.  The promise of [recognizeSpeech] settles with the first event
    of the session that is an error or a result carrying a first
    alternative, whatever follows; a result event without one throws in
    the handler and settles nothing; and if no event settles it, the
    promise stays pending, there being no timeout.  The unprefixed
    constructor is the one used when the host has both. *)
Theorem recognition_settles_with_first_event (h : Host) :
  (forall impl, recognition_constructor h = Some impl ->
     rec_promise (recognizeSpeech h) = first_settling (session_events impl)) /\
  (forall impl, window_SpeechRecognition h = Some impl ->
     rec_promise (recognizeSpeech h) = first_settling (session_events impl)) /\
  (forall impl, recognition_constructor h = Some impl ->
     session_events impl = [] -> rec_promise (recognizeSpeech h) = Pending).
Proof.
  assert (Hmain : forall impl, recognition_constructor h = Some impl ->
            rec_promise (recognizeSpeech h)
            = first_settling (session_events impl)).
  { intros impl Hc.
    unfold recognizeSpeech, recognize_started, recognize_executor.
    unfold recognition_constructor in Hc. rewrite Hc. cbn.
    apply rec_fold_first_settling. reflexivity. }
  split; [exact Hmain|]. split.
  - intros impl Hw. apply Hmain. unfold recognition_constructor.
    rewrite Hw. reflexivity.
  - intros impl Hc He. rewrite (Hmain impl Hc), He. reflexivity.
Qed.

Lemma recognition_settles_with_first_event_witness :
  rec_promise
    (recognizeSpeech
       (dual_host [result_event []; error_event "no-speech";
                   result_event [[{| transcript := "late";
                                     confidence := 1 |}]]]
                  [error_event "aborted"]))
  = Rejected (Error "Speech recognition error: no-speech").
Proof.
  destruct (recognition_settles_with_first_event
              (dual_host [result_event []; error_event "no-speech";
                          result_event [[{| transcript := "late";
                                            confidence := 1 |}]]]
                         [error_event "aborted"]))
    as (_ & Hstd & _).
  exact (Hstd _ eq_refl).
Defined.

(** X13.  [isSpeechRecognitionSupported()] answers false exactly when
    [recognizeSpeech] constructs no session, and then the promise is
    rejected with the unsupported error; when it answers true exactly
    one session is constructed, however many events follow. *)
Theorem recognition_detector_agrees (h : Host) :
  (isSpeechRecognitionSupported h = false <->
   sessions (recognizeSpeech h) = []) /\
  (isSpeechRecognitionSupported h = false ->
   rec_promise (recognizeSpeech h) = Rejected UnsupportedRecognition) /\
  (isSpeechRecognitionSupported h = true ->
   sessions (recognizeSpeech h) = [configured_session]).
Proof.
  unfold isSpeechRecognitionSupported, recognizeSpeech, recognize_started,
    recognize_executor.
  destruct (or_else (window_SpeechRecognition h)
                    (window_webkitSpeechRecognition h)) as [impl|]; cbn.
  - rewrite rec_sessions_stable. cbn.
    repeat split; try discriminate; reflexivity.
  - repeat split; try discriminate; reflexivity.
Qed.

Lemma recognition_detector_agrees_witness :
  rec_promise (recognizeSpeech silent_host) = Rejected UnsupportedRecognition
  /\ sessions (recognizeSpeech (webkit_host [error_event "aborted"]))
     = [configured_session].
Proof.
  split.
  - destruct (recognition_detector_agrees silent_host) as (_ & Hno & _).
    exact (Hno eq_refl).
  - destruct (recognition_detector_agrees (webkit_host [error_event "aborted"]))
      as (_ & _ & Hyes).
    exact (Hyes eq_refl).
Defined.
